(** * mdlayher/lldp: the LLDPDU codec, embedded and verified

    A shallow embedding of the Go package [lldp] (files [tlv.go],
    [chassisid.go], [portid.go] and [lldp.go]) together with the
    properties its specification states about it.

    Conventions of the embedding:
    - [byte] and every [uint8]-based type ([TLVType], [ChassisIDSubtype],
      [PortIDSubtype]) are [Byte.byte]; arithmetic on them goes through
      [Byte.to_N] and the truncating conversion [byte_of_N];
    - [uint16] is [N], with the reduction modulo 2^16 written out wherever
      the source converts or computes in [uint16];
    - [time.Duration] is [Z] (a signed count of nanoseconds);
    - [int] values that are slice lengths or offsets are [nat];
    - a slice is the list of its elements (a nil slice and an empty slice
      are the same list); a pointer that may be nil is an [option];
    - a run-time panic (nil dereference, slice bounds) is the outcome
      [Panic], distinct from every returned error;
    - a method with a pointer receiver that assigns to its receiver is a
      computation in the state monad [M] over the receiver. *)

From Stdlib Require Import NArith ZArith List Bool Lia Strings.Byte.
Import ListNotations.

(** ** Errors, results and the two monads *)

Inductive error : Type :=
| ErrInvalidFrame
| ErrInvalidTLV
| ErrUnexpectedEOF.

Inductive result (A : Type) : Type :=
| Ok (a : A)
| Err (e : error)
| Panic.

Arguments Ok {A} a.
Arguments Err {A} e.
Arguments Panic {A}.

Definition rbind {A B : Type} (c : result A) (k : A -> result B) : result B :=
  match c with
  | Ok a => k a
  | Err e => Err e
  | Panic => Panic
  end.

Notation "x <- c ;; k" := (rbind c (fun x => k))
  (at level 61, c at next level, right associativity).

(** State over the receiver [S], errors and panics on top. *)
Definition M (S A : Type) : Type := S -> S * result A.

Definition ret {S A : Type} (a : A) : M S A := fun s => (s, Ok a).
Definition throw {S A : Type} (e : error) : M S A := fun s => (s, Err e).
Definition lift {S A : Type} (c : result A) : M S A := fun s => (s, c).
Definition get {S : Type} : M S S := fun s => (s, Ok s).
Definition modify {S : Type} (f : S -> S) : M S unit := fun s => (f s, Ok tt).
(** [return nil] of a method whose only result is an [error]. *)
Definition done {S : Type} : M S unit := ret tt.

Definition mbind {S A B : Type} (c : M S A) (k : A -> M S B) : M S B :=
  fun s =>
    match c s with
    | (s', Ok a) => k a s'
    | (s', Err e) => (s', Err e)
    | (s', Panic) => (s', Panic)
    end.

Notation "x <~ c ;; k" := (mbind c (fun x => k))
  (at level 61, c at next level, right associativity).
Notation "c ;;; k" := (mbind c (fun _ => k))
  (at level 61, right associativity).

(** ** Bytes, slices and [encoding/binary] *)

Definition bytes : Type := list byte.

(** [byte(n)]: conversion to [uint8] keeps the low eight bits. *)
Definition byte_of_N (n : N) : byte :=
  match Byte.of_N (n mod 256) with
  | Some b => b
  | None => x00
  end.

(** [uint16(n)] for an unsigned [n], and for a signed one. *)
Definition uint16 (n : N) : N := (n mod 65536)%N.
Definition uint16_of_Z (z : Z) : N := Z.to_N (z mod 65536).

(** [make([]byte, n)]. *)
Definition make (n : nat) : bytes := repeat x00 n.

(** [copy(dst, src)]: the first [min (len dst) (len src)] elements of
    [dst] are overwritten; the value is [dst] afterwards. *)
Definition copy (dst src : bytes) : bytes :=
  firstn (length dst) src ++ skipn (length src) dst.

(** [b[i]]. *)
Definition index {A : Type} (l : list A) (i : nat) : result A :=
  match nth_error l i with
  | Some a => Ok a
  | None => Panic
  end.

(** [b[lo:hi]]; the bounds are checked as Go checks them. *)
Definition slice {A : Type} (l : list A) (lo hi : nat) : result (list A) :=
  if (lo <=? hi)%nat && (hi <=? length l)%nat
  then Ok (firstn (hi - lo) (skipn lo l))
  else Panic.

(** [b[lo:]]. *)
Definition slice_from {A : Type} (l : list A) (lo : nat) : result (list A) :=
  slice l lo (length l).

(** A write through the sub-slice [b[lo:hi]] lands in [b] itself: [f]
    computes the new contents of the window. *)
Definition update_slice (b : bytes) (lo hi : nat)
    (f : bytes -> result bytes) : result bytes :=
  s <- slice b lo hi ;;
  s' <- f s ;;
  Ok (firstn lo b ++ s' ++ skipn hi b).

(** [binary.BigEndian.PutUint16(b, v)]. *)
Definition BigEndian_PutUint16 (b : bytes) (v : N) : result bytes :=
  match b with
  | _ :: _ :: rest => Ok (byte_of_N (N.shiftr v 8) :: byte_of_N v :: rest)
  | _ => Panic
  end.

(** [binary.BigEndian.Uint16(b)]. *)
Definition BigEndian_Uint16 (b : bytes) : result N :=
  match b with
  | b0 :: b1 :: _ => Ok (N.lor (Byte.to_N b1) (N.shiftl (Byte.to_N b0) 8))
  | _ => Panic
  end.

(** ** tlv.go *)

Definition TLVLengthMax : N := 0x01ff.

Definition TLVType : Type := byte.

Definition TLVTypeEnd : TLVType := x00.
Definition TLVTypeChassisID : TLVType := x01.
Definition TLVTypePortID : TLVType := x02.
Definition TLVTypeTTL : TLVType := x03.
Definition TLVTypePortDescription : TLVType := x04.
Definition TLVTypeSystemName : TLVType := x05.
Definition TLVTypeSystemDescription : TLVType := x06.
Definition TLVTypeSystemCapabilities : TLVType := x07.
Definition TLVTypeManagementAddress : TLVType := x08.
Definition TLVTypeOrganizationSpecific : TLVType := x7f.
Definition TLVTypeMax : TLVType := TLVTypeOrganizationSpecific.

Record TLV : Type := mkTLV {
  TLV_Type : TLVType;
  TLV_Length : N;
  TLV_Value : bytes
}.

(** [new(TLV)]. *)
Definition new_TLV : TLV := mkTLV x00 0 [].

Definition set_TLV_Type (ty : TLVType) (t : TLV) : TLV :=
  mkTLV ty (TLV_Length t) (TLV_Value t).
Definition set_TLV_Length (n : N) (t : TLV) : TLV :=
  mkTLV (TLV_Type t) n (TLV_Value t).
Definition set_TLV_Value (v : bytes) (t : TLV) : TLV :=
  mkTLV (TLV_Type t) (TLV_Length t) v.

Definition TLV_MarshalBinary (t : TLV) : result bytes :=
  if (Byte.to_N TLVTypeMax <? Byte.to_N (TLV_Type t))%N then Err ErrInvalidTLV
  else if (TLVLengthMax <? TLV_Length t)%N then Err ErrInvalidTLV
  else if negb (N.to_nat (TLV_Length t) =? length (TLV_Value t))%nat
  then Err ErrInvalidTLV
  else
    let b := make (2 + length (TLV_Value t)) in
    let tb := 0%N in
    let tb := N.lor tb (uint16 (N.shiftl (Byte.to_N (TLV_Type t)) 9)) in
    let tb := N.lor tb (TLV_Length t) in
    b <- update_slice b 0 2 (fun w => BigEndian_PutUint16 w tb) ;;
    b <- update_slice b 2 (length b) (fun w => Ok (copy w (TLV_Value t))) ;;
    Ok b.

Definition TLV_UnmarshalBinary (b : bytes) : M TLV unit :=
  if (length b <? 2)%nat then throw ErrUnexpectedEOF
  else
    b0 <~ lift (index b 0) ;;
    modify (set_TLV_Type (byte_of_N (N.shiftr (Byte.to_N b0) 1))) ;;;
    hd <~ lift (slice b 0 2) ;;
    w <~ lift (BigEndian_Uint16 hd) ;;
    modify (set_TLV_Length (N.land w TLVLengthMax)) ;;;
    t <~ get ;;
    tl <~ lift (slice_from b 2) ;;
    if (length tl <? N.to_nat (TLV_Length t))%nat then throw ErrUnexpectedEOF
    else
      src <~ lift (slice b 2 (N.to_nat (uint16 (2 + TLV_Length t)))) ;;
      modify (set_TLV_Value (copy (make (length src)) src)) ;;;
      done.

(** ** chassisid.go and portid.go *)

Definition ChassisIDSubtype : Type := byte.
Definition PortIDSubtype : Type := byte.

Record ChassisID : Type := mkChassisID {
  ChassisID_Subtype : ChassisIDSubtype;
  ChassisID_ID : bytes
}.

Record PortID : Type := mkPortID {
  PortID_Subtype : PortIDSubtype;
  PortID_ID : bytes
}.

(** [new(ChassisID)] and [new(PortID)]. *)
Definition new_ChassisID : ChassisID := mkChassisID x00 [].
Definition new_PortID : PortID := mkPortID x00 [].

Definition set_ChassisID_Subtype (s : ChassisIDSubtype) (c : ChassisID) :=
  mkChassisID s (ChassisID_ID c).
Definition set_ChassisID_ID (v : bytes) (c : ChassisID) :=
  mkChassisID (ChassisID_Subtype c) v.
Definition set_PortID_Subtype (s : PortIDSubtype) (p : PortID) :=
  mkPortID s (PortID_ID p).
Definition set_PortID_ID (v : bytes) (p : PortID) :=
  mkPortID (PortID_Subtype p) v.

(** [b[i] = v]. *)
Definition store (b : bytes) (i : nat) (v : byte) : result bytes :=
  if (i <? length b)%nat
  then Ok (firstn i b ++ v :: skipn (S i) b)
  else Panic.

Definition ChassisID_MarshalBinary (c : ChassisID) : result bytes :=
  let b := make (1 + length (ChassisID_ID c)) in
  b <- store b 0 (byte_of_N (Byte.to_N (ChassisID_Subtype c))) ;;
  b <- update_slice b 1 (length b) (fun w => Ok (copy w (ChassisID_ID c))) ;;
  Ok b.

Definition ChassisID_UnmarshalBinary (b : bytes) : M ChassisID unit :=
  if (length b <? 1)%nat then throw ErrUnexpectedEOF
  else
    b0 <~ lift (index b 0) ;;
    modify (set_ChassisID_Subtype b0) ;;;
    tl <~ lift (slice_from b 1) ;;
    modify (set_ChassisID_ID (make (length tl))) ;;;
    c <~ get ;;
    src <~ lift (slice_from b 1) ;;
    modify (set_ChassisID_ID (copy (ChassisID_ID c) src)) ;;;
    done.

Definition PortID_MarshalBinary (p : PortID) : result bytes :=
  let b := make (1 + length (PortID_ID p)) in
  b <- store b 0 (byte_of_N (Byte.to_N (PortID_Subtype p))) ;;
  b <- update_slice b 1 (length b) (fun w => Ok (copy w (PortID_ID p))) ;;
  Ok b.

Definition PortID_UnmarshalBinary (b : bytes) : M PortID unit :=
  if (length b <? 1)%nat then throw ErrUnexpectedEOF
  else
    b0 <~ lift (index b 0) ;;
    modify (set_PortID_Subtype b0) ;;;
    tl <~ lift (slice_from b 1) ;;
    modify (set_PortID_ID (make (length tl))) ;;;
    p <~ get ;;
    src <~ lift (slice_from b 1) ;;
    modify (set_PortID_ID (copy (PortID_ID p) src)) ;;;
    done.

(** ** lldp.go *)

(** [time.Duration] is an [int64] count of nanoseconds. *)
Definition Duration : Type := Z.
Definition Second : Duration := 1000000000%Z.
Definition MaxUint16 : Z := 65535%Z.

(** Reduction of an integer to the [int64] range (two's complement). *)
Definition int64 (z : Z) : Z := ((z + 2 ^ 63) mod 2 ^ 64 - 2 ^ 63)%Z.

Record Frame : Type := mkFrame {
  Frame_ChassisID : option ChassisID;
  Frame_PortID : option PortID;
  Frame_TTL : Duration;
  Frame_Optional : list (option TLV)
}.

(** [new(Frame)]. *)
Definition new_Frame : Frame := mkFrame None None 0%Z [].

Definition set_Frame_ChassisID (c : option ChassisID) (f : Frame) : Frame :=
  mkFrame c (Frame_PortID f) (Frame_TTL f) (Frame_Optional f).
Definition set_Frame_PortID (p : option PortID) (f : Frame) : Frame :=
  mkFrame (Frame_ChassisID f) p (Frame_TTL f) (Frame_Optional f).
Definition set_Frame_TTL (d : Duration) (f : Frame) : Frame :=
  mkFrame (Frame_ChassisID f) (Frame_PortID f) d (Frame_Optional f).
Definition set_Frame_Optional (o : list (option TLV)) (f : Frame) : Frame :=
  mkFrame (Frame_ChassisID f) (Frame_PortID f) (Frame_TTL f) o.

Definition is_nil {A : Type} (p : option A) : bool :=
  match p with
  | None => true
  | Some _ => false
  end.

(** Dereference of a pointer: a nil pointer panics. *)
Definition deref {A : Type} (p : option A) : result A :=
  match p with
  | Some a => Ok a
  | None => Panic
  end.

(** [for _, x := range l { s = body x s }], left on the first error. *)
Fixpoint for_range {A S : Type} (l : list A) (body : A -> S -> result S)
    (s : S) : result S :=
  match l with
  | [] => Ok s
  | x :: l' => s' <- body x s ;; for_range l' body s'
  end.

Definition Frame_length (f : Frame) : result nat :=
  let n := 0 in
  c <- deref (Frame_ChassisID f) ;;
  let n := n + (2 + 1 + length (ChassisID_ID c)) in
  p <- deref (Frame_PortID f) ;;
  let n := n + (2 + 1 + length (PortID_ID p)) in
  let n := n + (2 + 2) in
  n <- for_range (Frame_Optional f)
         (fun t n => t <- deref t ;; Ok (n + (2 + length (TLV_Value t)))) n ;;
  let n := n + 2 in
  Ok n.

Definition Frame_MarshalBinary (f : Frame) : result bytes :=
  if is_nil (Frame_ChassisID f) then Err ErrInvalidFrame
  else if is_nil (Frame_PortID f) then Err ErrInvalidFrame
  else
    let tTTL := Z.quot (Frame_TTL f) Second in
    if (MaxUint16 <? tTTL)%Z then Err ErrInvalidFrame
    else
      let ttl := uint16_of_Z tTTL in
      len <- Frame_length f ;;
      let b := make len in
      let n := 0 in
      (* chassis ID *)
      c <- deref (Frame_ChassisID f) ;;
      cb <- ChassisID_MarshalBinary c ;;
      let cTLV := mkTLV TLVTypeChassisID (uint16 (N.of_nat (length cb))) cb in
      cbb <- TLV_MarshalBinary cTLV ;;
      let n := n + length cbb in
      b <- update_slice b 0 n (fun w => Ok (copy w cbb)) ;;
      (* port ID *)
      p <- deref (Frame_PortID f) ;;
      pb <- PortID_MarshalBinary p ;;
      let pTLV := mkTLV TLVTypePortID (uint16 (N.of_nat (length pb))) pb in
      pbb <- TLV_MarshalBinary pTLV ;;
      b <- update_slice b n (n + length pbb) (fun w => Ok (copy w pbb)) ;;
      let n := n + length pbb in
      (* TTL *)
      let tb := make 2 in
      tb <- BigEndian_PutUint16 tb ttl ;;
      let tTLV := mkTLV TLVTypeTTL 2 tb in
      tbb <- TLV_MarshalBinary tTLV ;;
      b <- update_slice b n (n + length tbb) (fun w => Ok (copy w tbb)) ;;
      let n := n + length tbb in
      (* optional TLVs *)
      bn <- for_range (Frame_Optional f)
              (fun t bn =>
                 let '(b, n) := bn in
                 t <- deref t ;;
                 tb <- TLV_MarshalBinary t ;;
                 b <- update_slice b n (n + length tb)
                        (fun w => Ok (copy w tb)) ;;
                 Ok (b, n + length tb))
              (b, n) ;;
      Ok (fst bn).

(** The loop [for l := 0; len(b[l:]) > 0; { ... }] of [UnmarshalBinary].
    Every turn advances [l] by at least two, so [length b] turns are
    enough; [None] is "out of fuel" and is shown below never to occur. *)
Fixpoint read_TLVs (fuel : nat) (b : bytes) (l : nat) (tt : list TLV)
    : option (result (list TLV)) :=
  match slice_from b l with
  | Ok rest =>
      if (0 <? length rest)%nat then
        match fuel with
        | O => None
        | S fuel' =>
            match TLV_UnmarshalBinary rest new_TLV with
            | (t, Ok _) =>
                read_TLVs fuel' b (l + (2 + N.to_nat (TLV_Length t)))
                  (tt ++ [t])
            | (_, Err e) => Some (Err e)
            | (_, Panic) => Some Panic
            end
        end
      else Some (Ok tt)
  | Err e => Some (Err e)
  | Panic => Some Panic
  end.

Definition Frame_TLVs (b : bytes) : result (list TLV) :=
  match read_TLVs (length b) b 0 [] with
  | Some r => r
  | None => Panic
  end.

(** A method call through the pointer field [f.ChassisID]: the callee
    mutates the pointee, whatever it returns. *)
Definition via_ChassisID {A : Type} (m : M ChassisID A) : M Frame A :=
  fun f =>
    match Frame_ChassisID f with
    | None => (f, Panic)
    | Some c => let (c', r) := m c in (set_Frame_ChassisID (Some c') f, r)
    end.

Definition via_PortID {A : Type} (m : M PortID A) : M Frame A :=
  fun f =>
    match Frame_PortID f with
    | None => (f, Panic)
    | Some p => let (p', r) := m p in (set_Frame_PortID (Some p') f, r)
    end.

Definition Frame_UnmarshalBinary (b : bytes) : M Frame unit :=
  tt <~ lift (Frame_TLVs b) ;;
  if (length tt <? 4)%nat then throw ErrUnexpectedEOF
  else
    t0 <~ lift (index tt 0) ;;
    if negb (Byte.eqb (TLV_Type t0) TLVTypeChassisID)
    then throw ErrInvalidFrame
    else
      modify (set_Frame_ChassisID (Some new_ChassisID)) ;;;
      via_ChassisID (ChassisID_UnmarshalBinary (TLV_Value t0)) ;;;
      t1 <~ lift (index tt 1) ;;
      if negb (Byte.eqb (TLV_Type t1) TLVTypePortID)
      then throw ErrInvalidFrame
      else
        modify (set_Frame_PortID (Some new_PortID)) ;;;
        via_PortID (PortID_UnmarshalBinary (TLV_Value t1)) ;;;
        t2 <~ lift (index tt 2) ;;
        if negb (Byte.eqb (TLV_Type t2) TLVTypeTTL)
           || negb (TLV_Length t2 =? 2)%N
        then throw ErrInvalidFrame
        else
          secs <~ lift (BigEndian_Uint16 (TLV_Value t2)) ;;
          modify (set_Frame_TTL (int64 (Z.of_N secs * Second))) ;;;
          tn <~ lift (index tt (length tt - 1)) ;;
          if negb (Byte.eqb (TLV_Type tn) TLVTypeEnd)
             || negb (TLV_Length tn =? 0)%N
          then throw ErrInvalidFrame
          else
            opt <~ lift (slice tt 3 (length tt - 1)) ;;
            modify (set_Frame_Optional (map Some opt)) ;;;
            done.

(** ** Vocabulary of the statements *)

(** The invariant of a TLV: [Type] within seven bits, [Length] within
    nine, and [Length] the number of bytes of [Value]. *)
Definition TLV_valid (t : TLV) : Prop :=
  (Byte.to_N (TLV_Type t) <= 127)%N /\
  (TLV_Length t <= 511)%N /\
  N.to_nat (TLV_Length t) = length (TLV_Value t).

(** The sixteen-bit big-endian word made of two bytes. *)
Definition be16 (b0 b1 : byte) : N := (Byte.to_N b0 * 256 + Byte.to_N b1)%N.

(** The header word of a byte sequence (zero-padded when it is short). *)
Definition header_word (b : bytes) : N := be16 (nth 0 b x00) (nth 1 b x00).

(** The reference extraction of the specification:
    [kind = word >> 9] and [length = word & 0x01FF]. *)
Definition spec_kind (word : N) : N := N.shiftr word 9.
Definition spec_length (word : N) : N := N.land word 0x01FF.

(** The extraction as [TLV.UnmarshalBinary] performs it on the first two
    bytes: the state of the receiver once the header has been read. *)
Definition impl_header (b0 b1 : byte) (rest : bytes) (t : TLV) : N * N :=
  let t' := fst (TLV_UnmarshalBinary (b0 :: b1 :: rest) t) in
  (Byte.to_N (TLV_Type t'), TLV_Length t').

(** The wire form of a TLV: header word, then the value. *)
Definition TLV_wire (t : TLV) : bytes :=
  let w := (Byte.to_N (TLV_Type t) * 512 + TLV_Length t)%N in
  byte_of_N (N.shiftr w 8) :: byte_of_N w :: TLV_Value t.

(** The two ways an input can be too short for [TLV.UnmarshalBinary]:
    no room for the header word, or fewer bytes after it than the parsed
    length announces. *)
Definition TLV_short (b : bytes) : Prop :=
  length b < 2 \/
  length b - 2 < N.to_nat (spec_length (header_word b)).

(** The three mandatory TLVs that [Frame.MarshalBinary] builds. *)
Definition chassis_TLV (c : ChassisID) : TLV :=
  let cb := ChassisID_Subtype c :: ChassisID_ID c in
  mkTLV TLVTypeChassisID (uint16 (N.of_nat (length cb))) cb.

Definition port_TLV (p : PortID) : TLV :=
  let pb := PortID_Subtype p :: PortID_ID p in
  mkTLV TLVTypePortID (uint16 (N.of_nat (length pb))) pb.

Definition ttl_TLV (ttl : N) : TLV :=
  mkTLV TLVTypeTTL 2 [byte_of_N (N.shiftr ttl 8); byte_of_N ttl].

(** The End Of LLDPDU TLV; on the wire it is the two zero bytes that
    [make] leaves at the end of the buffer. *)
Definition end_TLV : TLV := mkTLV TLVTypeEnd 0 [].

(** The wire form of a run of TLVs, and of a whole frame. *)
Definition TLVs_wire (ts : list TLV) : bytes := concat (map TLV_wire ts).

Definition Frame_wire (c : ChassisID) (p : PortID) (ttl : N)
    (ts : list TLV) : bytes :=
  TLV_wire (chassis_TLV c) ++ TLV_wire (port_TLV p) ++
  TLV_wire (ttl_TLV ttl) ++ TLVs_wire ts ++ [x00; x00].

(** The four positional requirements of [Frame.UnmarshalBinary] on the
    sequence of decoded units. *)
Definition positional (tts : list TLV) : Prop :=
  (exists t0, nth_error tts 0 = Some t0 /\ TLV_Type t0 = TLVTypeChassisID) /\
  (exists t1, nth_error tts 1 = Some t1 /\ TLV_Type t1 = TLVTypePortID) /\
  (exists t2, nth_error tts 2 = Some t2 /\
              TLV_Type t2 = TLVTypeTTL /\ TLV_Length t2 = 2%N) /\
  (exists tn, nth_error tts (length tts - 1) = Some tn /\
              TLV_Type tn = TLVTypeEnd /\ TLV_Length tn = 0%N).

(** An identifier unit without even its subtype byte is met before any
    positional requirement fails: unit 0 is a chassis ID with an empty
    value, or unit 0 is a chassis ID with a subtype byte and unit 1 a port
    ID with an empty value. *)
Definition empty_identifier_first (tts : list TLV) : Prop :=
  (exists t0, nth_error tts 0 = Some t0 /\
              TLV_Type t0 = TLVTypeChassisID /\ TLV_Value t0 = []) \/
  (exists t0 t1, nth_error tts 0 = Some t0 /\ nth_error tts 1 = Some t1 /\
                 TLV_Type t0 = TLVTypeChassisID /\ TLV_Value t0 <> [] /\
                 TLV_Type t1 = TLVTypePortID /\ TLV_Value t1 = []).

(** C4 as the specification words it, for one input and one receiver. *)
Definition C4_as_stated (b : bytes) (f : Frame) : Prop :=
  forall tts : list TLV,
    Frame_TLVs b = Ok tts ->
    (length tts < 4 ->
     snd (Frame_UnmarshalBinary b f) = Err ErrUnexpectedEOF) /\
    (4 <= length tts -> ~ positional tts ->
     snd (Frame_UnmarshalBinary b f) = Err ErrInvalidFrame).

(** C7 as the specification words it, for one input and one receiver. *)
Definition C7_as_stated (b : bytes) (f : Frame) : Prop :=
  snd (Frame_UnmarshalBinary b f) = Ok tt ->
  forall t : TLV,
    In (Some t) (Frame_Optional (fst (Frame_UnmarshalBinary b f))) ->
    TLV_Type t <> TLVTypeEnd.

(** ** Proof steps for the monadic code *)

(** One [mbind] of a computation in [M]: run its first action. *)
Ltac mstep := unfold mbind at 1; cbn [lift modify get].

(** ** Worked examples from the repository's tests *)

Definition test_frame : Frame :=
  mkFrame (Some (mkChassisID x01 [x66; x6f; x6f]))
          (Some (mkPortID x01 [x62; x61; x72]))
          (255 * Second)%Z [].

Definition test_frame_bytes : bytes :=
  [x02; x04; x01; x66; x6f; x6f;
   x04; x04; x01; x62; x61; x72;
   x06; x02; x00; xff;
   x00; x00].

Example marshal_test_frame :
  Frame_MarshalBinary test_frame = Ok test_frame_bytes.
Proof. vm_compute. reflexivity. Qed.

Example unmarshal_test_frame :
  Frame_UnmarshalBinary test_frame_bytes new_Frame = (test_frame, Ok tt).
Proof. vm_compute. reflexivity. Qed.

(** [TestTLVMarshalBinary]. *)
Example tlv_type_too_large :
  TLV_MarshalBinary (mkTLV x80 0 []) = Err ErrInvalidTLV.
Proof. reflexivity. Qed.

Example tlv_length_too_large :
  TLV_MarshalBinary (mkTLV x00 512 []) = Err ErrInvalidTLV.
Proof. reflexivity. Qed.

Example tlv_length_mismatch :
  TLV_MarshalBinary (mkTLV x00 1 [x01; x02]) = Err ErrInvalidTLV.
Proof. reflexivity. Qed.

Example tlv_marshal_small :
  TLV_MarshalBinary (mkTLV x01 1 [xff]) = Ok [x02; x01; xff].
Proof. vm_compute. reflexivity. Qed.

Example tlv_marshal_largest :
  TLV_MarshalBinary (mkTLV TLVTypeMax TLVLengthMax (make 511))
  = Ok (xff :: xff :: make 511).
Proof. vm_compute. reflexivity. Qed.

(** [TestTLVUnmarshalBinary]. *)
Example tlv_unmarshal_nil :
  TLV_UnmarshalBinary [] new_TLV = (new_TLV, Err ErrUnexpectedEOF).
Proof. reflexivity. Qed.

Example tlv_unmarshal_bad_length :
  snd (TLV_UnmarshalBinary [x02; xff] new_TLV) = Err ErrUnexpectedEOF.
Proof. vm_compute. reflexivity. Qed.

Example tlv_unmarshal_trailing :
  TLV_UnmarshalBinary [x00; x00; xff] new_TLV = (mkTLV x00 0 [], Ok tt).
Proof. vm_compute. reflexivity. Qed.

Example tlv_unmarshal_largest :
  TLV_UnmarshalBinary (xff :: xff :: make 511) new_TLV
  = (mkTLV TLVTypeMax TLVLengthMax (make 511), Ok tt).
Proof. vm_compute. reflexivity. Qed.

(** [TestFrameMarshalBinary]. *)
Example frame_chassis_too_long :
  Frame_MarshalBinary
    (mkFrame (Some (mkChassisID x00 (make 512))) (Some new_PortID) 0%Z [])
  = Err ErrInvalidTLV.
Proof. vm_compute. reflexivity. Qed.

Example frame_optional_mismatch :
  Frame_MarshalBinary
    (mkFrame (Some new_ChassisID) (Some new_PortID) 0%Z
             [Some (mkTLV x00 2 [x01])])
  = Err ErrInvalidTLV.
Proof. vm_compute. reflexivity. Qed.

(** [TestFrameUnmarshalBinary]. *)
Example frame_second_TLV_short :
  snd (Frame_UnmarshalBinary [x02; x00; x02; xff] new_Frame)
  = Err ErrUnexpectedEOF.
Proof. vm_compute. reflexivity. Qed.

Example frame_third_not_uint16 :
  snd (Frame_UnmarshalBinary
         [x02; x01; x00; x04; x01; x00; x06; x01; x00; x00; x00] new_Frame)
  = Err ErrInvalidFrame.
Proof. vm_compute. reflexivity. Qed.

Example frame_last_not_empty :
  snd (Frame_UnmarshalBinary
         [x02; x01; x00; x04; x01; x00; x06; x02; x00; x00; x00; x01; x00]
         new_Frame)
  = Err ErrInvalidFrame.
Proof. vm_compute. reflexivity. Qed.

Example frame_two_optional :
  Frame_UnmarshalBinary
    [x02; x05; x06; x65; x74; x68; x30;
     x04; x05; x04; x65; x74; x68; x31;
     x06; x02; x00; xff;
     x08; x01; x01;
     x0a; x02; x01; x02;
     x00; x00] new_Frame
  = (mkFrame (Some (mkChassisID x06 [x65; x74; x68; x30]))
             (Some (mkPortID x04 [x65; x74; x68; x31]))
             (255 * Second)%Z
             [Some (mkTLV x04 1 [x01]); Some (mkTLV x05 2 [x01; x02])],
     Ok tt).
Proof. vm_compute. reflexivity. Qed.

(** ** Bytes and sixteen-bit words *)

Section ByteFacts.
Local Open Scope N_scope.

Lemma to_N_lt_256 (b : byte) : Byte.to_N b < 256.
Proof. pose proof (Byte.to_N_bounded b). lia. Qed.

Lemma byte_of_N_small (n : N) (b : byte) :
  Byte.to_N b = n -> byte_of_N n = b.
Proof.
  intros <-. unfold byte_of_N.
  rewrite N.mod_small by apply to_N_lt_256.
  now rewrite Byte.of_to_N.
Qed.

Lemma byte_of_N_to_N (b : byte) : byte_of_N (Byte.to_N b) = b.
Proof. now apply byte_of_N_small. Qed.

Lemma to_N_byte_of_N (n : N) : Byte.to_N (byte_of_N n) = n mod 256.
Proof.
  unfold byte_of_N.
  destruct (Byte.of_N (n mod 256)) as [b|] eqn:E.
  - now apply Byte.to_of_N.
  - apply Byte.of_N_None_iff in E.
    pose proof (N.mod_upper_bound n 256). lia.
Qed.

Lemma to_N_inj (a b : byte) : Byte.to_N a = Byte.to_N b -> a = b.
Proof.
  intros H. rewrite <- (byte_of_N_to_N a), <- (byte_of_N_to_N b).
  now rewrite H.
Qed.

(** Bits of a number below [2^k] vanish from position [k] on. *)
Lemma testbit_above (a k n : N) : a < 2 ^ k -> k <= n -> N.testbit a n = false.
Proof.
  intros Ha Hk.
  destruct (N.eq_dec a 0) as [->|Hz]; [apply N.bits_0|].
  apply N.bits_above_log2.
  apply N.lt_le_trans with k; [|exact Hk].
  apply N.log2_lt_pow2; lia.
Qed.

(** On disjoint bit ranges [lor] is addition. *)
Lemma lor_shiftl_add (hi lo k : N) :
  lo < 2 ^ k -> N.lor lo (N.shiftl hi k) = hi * 2 ^ k + lo.
Proof.
  intros Hlo.
  rewrite N.shiftl_mul_pow2, N.add_comm.
  assert (Hd : N.land lo (hi * 2 ^ k) = 0).
  { apply N.bits_inj. intros n. rewrite N.land_spec, N.bits_0.
    destruct (N.lt_ge_cases n k) as [Hn|Hn].
    - now rewrite N.mul_pow2_bits_low, andb_false_r.
    - now rewrite (testbit_above lo k n). }
  rewrite <- N.lxor_lor by exact Hd.
  now rewrite N.add_nocarry_lxor.
Qed.

(** The header word, as [binary.BigEndian.Uint16] computes it. *)
Lemma Uint16_word (b0 b1 : byte) (rest : bytes) :
  BigEndian_Uint16 (b0 :: b1 :: rest)
  = Ok (Byte.to_N b0 * 256 + Byte.to_N b1).
Proof.
  simpl. f_equal.
  apply (lor_shiftl_add (Byte.to_N b0) (Byte.to_N b1) 8).
  apply to_N_lt_256.
Qed.

Lemma land_TLVLengthMax (w : N) : N.land w TLVLengthMax = w mod 512.
Proof. exact (N.land_ones w 9). Qed.

Lemma shiftr_9 (w : N) : N.shiftr w 9 = w / 512.
Proof. exact (N.shiftr_div_pow2 w 9). Qed.

(** What [TLV.MarshalBinary] stores in [tb] for a type and a length
    within their bounds. *)
Lemma header_tb (ty : byte) (len : N) :
  Byte.to_N ty <= 127 -> len <= 511 ->
  N.lor (N.lor 0 (uint16 (N.shiftl (Byte.to_N ty) 9))) len
  = Byte.to_N ty * 512 + len.
Proof.
  intros Hty Hlen. rewrite N.lor_0_l. unfold uint16.
  assert (Hs : N.shiftl (Byte.to_N ty) 9 = Byte.to_N ty * 512)
    by exact (N.shiftl_mul_pow2 _ 9).
  rewrite (N.mod_small (N.shiftl _ _)) by lia.
  rewrite N.lor_comm.
  exact (lor_shiftl_add (Byte.to_N ty) len 9 ltac:(change (2 ^ 9) with 512; lia)).
Qed.

Lemma be16_lt (b0 b1 : byte) : be16 b0 b1 < 65536.
Proof.
  unfold be16. pose proof (to_N_lt_256 b0). pose proof (to_N_lt_256 b1).
  lia.
Qed.

Lemma be16_shiftr_9 (b0 b1 : byte) :
  N.shiftr (be16 b0 b1) 9 = N.shiftr (Byte.to_N b0) 1.
Proof.
  rewrite !N.shiftr_div_pow2.
  change (2 ^ 9) with (256 * 2). change (2 ^ 1) with 2.
  rewrite <- N.Div0.div_div. f_equal.
  unfold be16. rewrite N.div_add_l by lia.
  rewrite N.div_small by apply to_N_lt_256. lia.
Qed.

Lemma be16_bytes (w : N) :
  w < 65536 -> be16 (byte_of_N (N.shiftr w 8)) (byte_of_N w) = w.
Proof.
  intros Hw. unfold be16. rewrite !to_N_byte_of_N.
  rewrite N.shiftr_div_pow2. change (2 ^ 8) with 256.
  rewrite (N.mod_small (w / 256)) by (apply N.Div0.div_lt_upper_bound; lia).
  rewrite (N.div_mod w 256) at 3 by lia. lia.
Qed.

Lemma header_split (ty len : N) :
  len <= 511 ->
  (ty * 512 + len) / 512 = ty /\ (ty * 512 + len) mod 512 = len.
Proof.
  intros H. split.
  - rewrite N.div_add_l by lia. rewrite N.div_small by lia. lia.
  - rewrite N.add_comm, N.Div0.mod_add. apply N.mod_small. lia.
Qed.
End ByteFacts.

(** ** Slices *)

Lemma make_length (n : nat) : length (make n) = n.
Proof. apply repeat_length. Qed.

Lemma copy_same_length (dst src : bytes) :
  length dst = length src -> copy dst src = src.
Proof.
  intros H. unfold copy. rewrite H, firstn_all, skipn_all2 by lia.
  apply app_nil_r.
Qed.

Lemma slice_ok {A : Type} (l : list A) (lo hi : nat) :
  lo <= hi -> hi <= length l ->
  slice l lo hi = Ok (firstn (hi - lo) (skipn lo l)).
Proof.
  intros H1 H2. unfold slice.
  destruct (Nat.leb_spec lo hi); [|lia].
  destruct (Nat.leb_spec hi (length l)); [|lia]. reflexivity.
Qed.

Lemma slice_from_ok {A : Type} (l : list A) (lo : nat) :
  lo <= length l -> slice_from l lo = Ok (skipn lo l).
Proof.
  intros H. unfold slice_from. rewrite slice_ok by lia.
  f_equal. apply firstn_all2. rewrite length_skipn. lia.
Qed.

Lemma update_slice_copy (b : bytes) (lo hi : nat) (src : bytes) :
  hi = lo + length src -> hi <= length b ->
  update_slice b lo hi (fun w => Ok (copy w src))
  = Ok (firstn lo b ++ src ++ skipn hi b).
Proof.
  intros -> Hb. unfold update_slice. rewrite slice_ok by lia. cbn [rbind].
  rewrite copy_same_length; [reflexivity|].
  rewrite length_firstn, length_skipn. lia.
Qed.

Lemma update_slice_PutUint16 (x y : byte) (r : bytes) (v : N) :
  update_slice (x :: y :: r) 0 2 (fun w => BigEndian_PutUint16 w v)
  = Ok (byte_of_N (N.shiftr v 8) :: byte_of_N v :: r).
Proof. reflexivity. Qed.

(** ** TLV units *)

Lemma TLV_MarshalBinary_invalid (t : TLV) :
  ~ TLV_valid t -> TLV_MarshalBinary t = Err ErrInvalidTLV.
Proof.
  unfold TLV_valid, TLV_MarshalBinary. intros H.
  change (Byte.to_N TLVTypeMax) with 127%N. unfold TLVLengthMax.
  destruct (N.ltb_spec 127 (Byte.to_N (TLV_Type t))); [reflexivity|].
  destruct (N.ltb_spec 511 (TLV_Length t)); [reflexivity|].
  destruct (Nat.eqb_spec (N.to_nat (TLV_Length t)) (length (TLV_Value t)));
    [|reflexivity].
  exfalso. apply H. repeat split; assumption.
Qed.

Lemma TLV_MarshalBinary_valid (t : TLV) :
  TLV_valid t -> TLV_MarshalBinary t = Ok (TLV_wire t).
Proof.
  intros (Hty & Hlen & Hval). unfold TLV_MarshalBinary, TLV_wire.
  change (Byte.to_N TLVTypeMax) with 127%N. unfold TLVLengthMax.
  destruct (N.ltb_spec 127 (Byte.to_N (TLV_Type t))); [lia|].
  destruct (N.ltb_spec 511 (TLV_Length t)); [lia|].
  rewrite Hval, Nat.eqb_refl. cbn [negb].
  rewrite header_tb by assumption.
  cbn [make repeat Nat.add].
  rewrite update_slice_PutUint16. cbn [rbind].
  rewrite update_slice_copy.
  - cbn [rbind firstn]. rewrite skipn_all. cbn [app]. now rewrite app_nil_r.
  - cbn [length]. now rewrite repeat_length.
  - apply Nat.le_refl.
Qed.

Lemma TLV_UnmarshalBinary_short (b : bytes) (t : TLV) :
  length b < 2 -> TLV_UnmarshalBinary b t = (t, Err ErrUnexpectedEOF).
Proof.
  intros H. unfold TLV_UnmarshalBinary.
  destruct (Nat.ltb_spec (length b) 2); [reflexivity|lia].
Qed.

(** The whole of [TLV.UnmarshalBinary] on an input that holds a header. *)
Lemma TLV_UnmarshalBinary_header (b0 b1 : byte) (rest : bytes) (t : TLV) :
  TLV_UnmarshalBinary (b0 :: b1 :: rest) t =
  let ty := byte_of_N (N.shiftr (Byte.to_N b0) 1) in
  let len := (be16 b0 b1 mod 512)%N in
  if (length rest <? N.to_nat len)%nat
  then (mkTLV ty len (TLV_Value t), Err ErrUnexpectedEOF)
  else (mkTLV ty len (firstn (N.to_nat len) rest), Ok tt).
Proof.
  unfold TLV_UnmarshalBinary.
  change (length (b0 :: b1 :: rest) <? 2)%nat with false. cbv iota.
  mstep. cbn [index nth_error].
  mstep.
  mstep. rewrite slice_ok by (cbn [length]; lia).
  cbn [Nat.sub skipn firstn].
  mstep. rewrite Uint16_word.
  mstep.
  mstep.
  mstep. rewrite slice_from_ok by (cbn [length]; lia).
  cbn [skipn set_TLV_Length set_TLV_Type TLV_Length TLV_Type TLV_Value].
  rewrite land_TLVLengthMax. fold (be16 b0 b1).
  cbv zeta.
  assert (Hlen : (be16 b0 b1 mod 512 < 512)%N)
    by (apply N.mod_upper_bound; lia).
  set (len := (be16 b0 b1 mod 512)%N) in *. clearbody len.
  destruct (Nat.ltb_spec (length rest) (N.to_nat len)).
  - reflexivity.
  - mstep. unfold uint16.
    rewrite N.mod_small by lia.
    rewrite slice_ok by (cbn [length]; lia).
    unfold mbind, modify, done, ret.
    rewrite copy_same_length by apply make_length.
    cbn [skipn set_TLV_Value TLV_Type TLV_Length].
    replace (N.to_nat (2 + len) - 2) with (N.to_nat len) by lia.
    reflexivity.
Qed.

Lemma shifted_type_bound (b0 : byte) :
  Byte.to_N (byte_of_N (N.shiftr (Byte.to_N b0) 1)) = N.shiftr (Byte.to_N b0) 1
  /\ (N.shiftr (Byte.to_N b0) 1 <= 127)%N.
Proof.
  pose proof (to_N_lt_256 b0) as Hb.
  assert (Hs : (N.shiftr (Byte.to_N b0) 1 <= 127)%N).
  { rewrite N.shiftr_div_pow2. change (2 ^ 1)%N with 2%N.
    apply N.lt_succ_r. apply N.Div0.div_lt_upper_bound; lia. }
  split; [|exact Hs].
  rewrite to_N_byte_of_N. apply N.mod_small. lia.
Qed.

(** Decoding the wire form of a valid TLV, whatever follows it and
    whatever the receiver held before. *)
Lemma TLV_UnmarshalBinary_wire (t : TLV) (rest : bytes) (t0 : TLV) :
  TLV_valid t ->
  TLV_UnmarshalBinary (TLV_wire t ++ rest) t0 = (t, Ok tt).
Proof.
  intros (Hty & Hlen & Hval). unfold TLV_wire. cbn [app].
  rewrite TLV_UnmarshalBinary_header. cbv zeta.
  set (w := (Byte.to_N (TLV_Type t) * 512 + TLV_Length t)%N).
  assert (Hw : (w < 65536)%N) by (unfold w; lia).
  destruct (header_split (Byte.to_N (TLV_Type t)) (TLV_Length t) Hlen)
    as [Hdiv Hmod]. fold w in Hdiv, Hmod.
  assert (Hkind : byte_of_N (N.shiftr (Byte.to_N (byte_of_N (N.shiftr w 8))) 1)
                  = TLV_Type t).
  { apply byte_of_N_small.
    rewrite <- (be16_shiftr_9 _ (byte_of_N w)), be16_bytes by exact Hw.
    now rewrite shiftr_9. }
  rewrite Hkind, be16_bytes, Hmod by exact Hw.
  rewrite Hval.
  destruct (Nat.ltb_spec (length (TLV_Value t ++ rest)) (length (TLV_Value t)))
    as [Hlt|_].
  - rewrite length_app in Hlt. lia.
  - rewrite firstn_app, firstn_all, Nat.sub_diag. cbn [firstn].
    rewrite app_nil_r. now destruct t.
Qed.

(** C2 (TLV encode).  [TLV.MarshalBinary] returns [ErrInvalidTLV] exactly
    when [Type > 127], or [Length > 511], or [Length] is not the number of
    bytes of [Value]; otherwise it returns [2 + Length] bytes: two header
    bytes forming a big-endian word whose top seven bits are [Type] and
    whose low nine bits are [Length], followed by [Value] unchanged. *)
Theorem C2_TLV_MarshalBinary_spec (t : TLV) :
  (((127 < Byte.to_N (TLV_Type t))%N \/
    (511 < TLV_Length t)%N \/
    N.to_nat (TLV_Length t) <> length (TLV_Value t)) /\
   TLV_MarshalBinary t = Err ErrInvalidTLV)
  \/
  ((Byte.to_N (TLV_Type t) <= 127)%N /\
   (TLV_Length t <= 511)%N /\
   N.to_nat (TLV_Length t) = length (TLV_Value t) /\
   exists b0 b1 : byte,
     TLV_MarshalBinary t = Ok (b0 :: b1 :: TLV_Value t) /\
     length (b0 :: b1 :: TLV_Value t) = 2 + N.to_nat (TLV_Length t) /\
     N.shiftr (be16 b0 b1) 9 = Byte.to_N (TLV_Type t) /\
     N.land (be16 b0 b1) 0x01FF = TLV_Length t).
Proof.
  destruct (N.le_gt_cases (Byte.to_N (TLV_Type t)) 127) as [Hty|Hty].
  2:{ left. split; [now left|].
      apply TLV_MarshalBinary_invalid. unfold TLV_valid. lia. }
  destruct (N.le_gt_cases (TLV_Length t) 511) as [Hlen|Hlen].
  2:{ left. split; [now right; left|].
      apply TLV_MarshalBinary_invalid. unfold TLV_valid. lia. }
  destruct (Nat.eq_dec (N.to_nat (TLV_Length t)) (length (TLV_Value t)))
    as [Hval|Hval].
  2:{ left. split; [now right; right|].
      apply TLV_MarshalBinary_invalid. unfold TLV_valid. tauto. }
  right. repeat split; try assumption.
  set (w := (Byte.to_N (TLV_Type t) * 512 + TLV_Length t)%N).
  exists (byte_of_N (N.shiftr w 8)), (byte_of_N w).
  destruct (header_split (Byte.to_N (TLV_Type t)) (TLV_Length t) Hlen)
    as [Hdiv Hmod]. fold w in Hdiv, Hmod.
  rewrite be16_bytes by (unfold w; lia).
  repeat split.
  - now apply TLV_MarshalBinary_valid.
  - cbn [length]. now rewrite Hval.
  - now rewrite shiftr_9.
  - change 0x01FF%N with TLVLengthMax. now rewrite land_TLVLengthMax.
Qed.

(** C3 (TLV decode).  [TLV.UnmarshalBinary] returns [io.ErrUnexpectedEOF]
    exactly when the input has fewer than two bytes or fewer bytes after
    the first two than the parsed length; otherwise it succeeds, with
    [Type] the high seven bits and [Length] the low nine bits of the
    header word and [Value] the next [Length] bytes.  No other outcome
    exists: the parsed [Type] and [Length] are never a reason to fail. *)
Theorem C3_TLV_UnmarshalBinary_spec (b : bytes) (t0 : TLV) :
  (TLV_short b /\
   snd (TLV_UnmarshalBinary b t0) = Err ErrUnexpectedEOF)
  \/
  (~ TLV_short b /\
   exists t : TLV,
     TLV_UnmarshalBinary b t0 = (t, Ok tt) /\
     Byte.to_N (TLV_Type t) = spec_kind (header_word b) /\
     TLV_Length t = spec_length (header_word b) /\
     TLV_Value t = firstn (N.to_nat (TLV_Length t)) (skipn 2 b) /\
     length (TLV_Value t) = N.to_nat (TLV_Length t) /\
     (Byte.to_N (TLV_Type t) <= 127)%N /\
     (TLV_Length t <= 511)%N).
Proof.
  unfold TLV_short.
  destruct b as [|b0 [|b1 rest]].
  - left. split; [left; cbn; lia|].
    now rewrite TLV_UnmarshalBinary_short by (cbn; lia).
  - left. split; [left; cbn; lia|].
    now rewrite TLV_UnmarshalBinary_short by (cbn; lia).
  - unfold header_word, spec_kind, spec_length. cbn [nth length skipn].
    change 0x01FF%N with TLVLengthMax. rewrite land_TLVLengthMax.
    rewrite TLV_UnmarshalBinary_header. cbv zeta.
    assert (Hlen : (be16 b0 b1 mod 512 < 512)%N)
      by (apply N.mod_upper_bound; lia).
    set (len := (be16 b0 b1 mod 512)%N) in *. clearbody len.
    destruct (shifted_type_bound b0) as [Hty Hty127].
    destruct (Nat.ltb_spec (length rest) (N.to_nat len)) as [Hlt|Hge].
    + left. split; [right; lia|reflexivity].
    + right. split; [lia|].
      eexists. split; [reflexivity|].
      cbn [TLV_Type TLV_Length TLV_Value].
      rewrite be16_shiftr_9, Hty, length_firstn.
      unfold TLVLengthMax.
      repeat split; try reflexivity; try assumption; lia.
Qed.

(** C5 (TLV round-trip).  A TLV with [Type <= 127], [Length <= 511] and
    [Length] the number of bytes of [Value] is encoded, and decoding the
    bytes gives the same TLV back, whatever the receiver held before. *)
Theorem C5_TLV_roundtrip (t t0 : TLV) :
  (Byte.to_N (TLV_Type t) <= 127)%N ->
  (TLV_Length t <= 511)%N ->
  N.to_nat (TLV_Length t) = length (TLV_Value t) ->
  exists bs : bytes,
    TLV_MarshalBinary t = Ok bs /\
    TLV_UnmarshalBinary bs t0 = (t, Ok tt).
Proof.
  intros Hty Hlen Hval.
  assert (Hv : TLV_valid t) by (repeat split; assumption).
  exists (TLV_wire t). split.
  - now apply TLV_MarshalBinary_valid.
  - rewrite <- (app_nil_r (TLV_wire t)). now apply TLV_UnmarshalBinary_wire.
Qed.

Lemma C5_TLV_roundtrip_witness :
  exists bs : bytes,
    TLV_MarshalBinary (mkTLV x7f 3 [x61; x62; x63]) = Ok bs /\
    TLV_UnmarshalBinary bs new_TLV = (mkTLV x7f 3 [x61; x62; x63], Ok tt).
Proof.
  apply (C5_TLV_roundtrip (mkTLV x7f 3 [x61; x62; x63]) new_TLV).
  - vm_compute. discriminate.
  - vm_compute. discriminate.
  - reflexivity.
Defined.

(** C8 (header extraction).  On every two-byte header, followed by
    anything, the extraction of [TLV.UnmarshalBinary] (first byte shifted
    right by one; big-endian word masked with 0x01FF) gives the pair of
    the reference formulas [word >> 9] and [word & 0x01FF]. *)
Theorem C8_header_extraction_equiv (b0 b1 : byte) (rest : bytes) (t0 : TLV) :
  impl_header b0 b1 rest t0
  = (spec_kind (be16 b0 b1), spec_length (be16 b0 b1)).
Proof.
  unfold impl_header, spec_kind, spec_length.
  rewrite TLV_UnmarshalBinary_header. cbv zeta.
  change 0x01FF%N with TLVLengthMax. rewrite land_TLVLengthMax.
  destruct (shifted_type_bound b0) as [Hty _].
  rewrite be16_shiftr_9.
  destruct (length rest <? N.to_nat (be16 b0 b1 mod 512))%nat;
    cbn [fst TLV_Type TLV_Length]; now rewrite Hty.
Qed.

(** ** Identifiers *)

Lemma ChassisID_MarshalBinary_wire (c : ChassisID) :
  ChassisID_MarshalBinary c = Ok (ChassisID_Subtype c :: ChassisID_ID c).
Proof.
  unfold ChassisID_MarshalBinary. cbn [make repeat Nat.add].
  unfold store. cbn [length Nat.ltb Nat.leb firstn skipn app rbind].
  rewrite byte_of_N_to_N.
  rewrite update_slice_copy.
  - cbn [rbind firstn skipn]. rewrite skipn_all. cbn [app].
    now rewrite app_nil_r.
  - now rewrite repeat_length.
  - cbn [length]. apply Nat.le_refl.
Qed.

Lemma PortID_MarshalBinary_wire (p : PortID) :
  PortID_MarshalBinary p = Ok (PortID_Subtype p :: PortID_ID p).
Proof.
  unfold PortID_MarshalBinary. cbn [make repeat Nat.add].
  unfold store. cbn [length Nat.ltb Nat.leb firstn skipn app rbind].
  rewrite byte_of_N_to_N.
  rewrite update_slice_copy.
  - cbn [rbind firstn skipn]. rewrite skipn_all. cbn [app].
    now rewrite app_nil_r.
  - now rewrite repeat_length.
  - cbn [length]. apply Nat.le_refl.
Qed.

Lemma ChassisID_UnmarshalBinary_nil (c : ChassisID) :
  ChassisID_UnmarshalBinary [] c = (c, Err ErrUnexpectedEOF).
Proof. reflexivity. Qed.

Lemma ChassisID_UnmarshalBinary_cons (s : byte) (id : bytes) (c : ChassisID) :
  ChassisID_UnmarshalBinary (s :: id) c = (mkChassisID s id, Ok tt).
Proof.
  unfold ChassisID_UnmarshalBinary.
  change (length (s :: id) <? 1)%nat with false. cbv iota.
  mstep. cbn [index nth_error].
  mstep.
  mstep. rewrite slice_from_ok by (cbn [length]; lia).
  mstep.
  mstep.
  mstep.
  unfold mbind, modify, done, ret.
  cbn [skipn set_ChassisID_ID set_ChassisID_Subtype ChassisID_ID
       ChassisID_Subtype].
  now rewrite copy_same_length by apply make_length.
Qed.

Lemma PortID_UnmarshalBinary_nil (p : PortID) :
  PortID_UnmarshalBinary [] p = (p, Err ErrUnexpectedEOF).
Proof. reflexivity. Qed.

Lemma PortID_UnmarshalBinary_cons (s : byte) (id : bytes) (p : PortID) :
  PortID_UnmarshalBinary (s :: id) p = (mkPortID s id, Ok tt).
Proof.
  unfold PortID_UnmarshalBinary.
  change (length (s :: id) <? 1)%nat with false. cbv iota.
  mstep. cbn [index nth_error].
  mstep.
  mstep. rewrite slice_from_ok by (cbn [length]; lia).
  mstep.
  mstep.
  mstep.
  unfold mbind, modify, done, ret.
  cbn [skipn set_PortID_ID set_PortID_Subtype PortID_ID PortID_Subtype].
  now rewrite copy_same_length by apply make_length.
Qed.

(** ** Frame encoding *)

Lemma TLV_wire_length (t : TLV) :
  length (TLV_wire t) = 2 + length (TLV_Value t).
Proof. reflexivity. Qed.

Lemma TLVs_wire_cons (t : TLV) (ts : list TLV) :
  TLVs_wire (t :: ts) = TLV_wire t ++ TLVs_wire ts.
Proof. reflexivity. Qed.

Lemma TLV_valid_dec (t : TLV) : TLV_valid t \/ ~ TLV_valid t.
Proof.
  unfold TLV_valid.
  destruct (N.le_gt_cases (Byte.to_N (TLV_Type t)) 127); [|right; lia].
  destruct (N.le_gt_cases (TLV_Length t) 511); [|right; lia].
  destruct (Nat.eq_dec (N.to_nat (TLV_Length t)) (length (TLV_Value t)));
    [left|right]; tauto.
Qed.

(** The loop of [Frame.length]. *)
Lemma length_loop (opts : list (option TLV)) (n : nat) :
  match for_range opts
          (fun t n => t <- deref t ;; Ok (n + (2 + length (TLV_Value t)))) n
  with
  | Ok m => exists ts, opts = map Some ts /\ m = n + length (TLVs_wire ts)
  | Err _ => False
  | Panic => In None opts
  end.
Proof.
  revert n. induction opts as [|[t|] opts IH]; intros n; cbn [for_range].
  - exists []. split; [reflexivity|]. cbn. lia.
  - cbn [deref rbind]. specialize (IH (n + (2 + length (TLV_Value t)))).
    destruct (for_range opts _ _) as [m| |].
    + destruct IH as (ts & -> & ->). exists (t :: ts). split; [reflexivity|].
      rewrite TLVs_wire_cons, length_app, TLV_wire_length. lia.
    + exact IH.
    + now right.
  - cbn. now left.
Qed.

Lemma copy_step (pre post src : bytes) (n : nat) :
  n = length pre -> length src <= length post ->
  update_slice (pre ++ post) n (n + length src) (fun w => Ok (copy w src))
  = Ok ((pre ++ src) ++ skipn (length src) post).
Proof.
  intros -> Hle. rewrite update_slice_copy.
  - rewrite firstn_app, firstn_all, Nat.sub_diag. cbn [firstn].
    rewrite app_nil_r, skipn_app, skipn_all2 by lia. cbn [app].
    replace (length pre + length src - length pre) with (length src) by lia.
    now rewrite app_assoc.
  - reflexivity.
  - rewrite length_app. lia.
Qed.

(** The loop of [Frame.MarshalBinary] over the optional TLVs. *)
Lemma marshal_loop (ts : list TLV) :
  forall (pre post : bytes) (n : nat),
    n = length pre -> length (TLVs_wire ts) <= length post ->
    match for_range (map Some ts)
            (fun t bn =>
               let '(b, n) := bn in
               t <- deref t ;;
               tb <- TLV_MarshalBinary t ;;
               b <- update_slice b n (n + length tb)
                      (fun w => Ok (copy w tb)) ;;
               Ok (b, n + length tb))
            (pre ++ post, n)
    with
    | Ok bn =>
        Forall TLV_valid ts /\
        fst bn = (pre ++ TLVs_wire ts) ++ skipn (length (TLVs_wire ts)) post
    | Err e => e = ErrInvalidTLV /\ ~ Forall TLV_valid ts
    | Panic => False
    end.
Proof.
  induction ts as [|t ts IH]; intros pre post n Hn Hlen.
  - cbn. split; [constructor|]. now rewrite app_nil_r.
  - cbn [map for_range deref rbind].
    rewrite TLVs_wire_cons, length_app in Hlen.
    destruct (TLV_valid_dec t) as [Hv|Hv].
    + rewrite (TLV_MarshalBinary_valid t Hv). cbn [rbind].
      rewrite copy_step by (trivial; lia). cbn [rbind].
      specialize (IH (pre ++ TLV_wire t) (skipn (length (TLV_wire t)) post)
                     (n + length (TLV_wire t))).
      rewrite length_app, length_skipn in IH.
      specialize (IH ltac:(lia) ltac:(lia)).
      destruct (for_range _ _ _) as [bn|e|].
      * destruct IH as [Hall Hb]. split; [now constructor|].
        rewrite Hb, TLVs_wire_cons, skipn_skipn, length_app.
        rewrite <- !app_assoc. do 3 f_equal. f_equal. lia.
      * destruct IH as [-> Hn']. split; [reflexivity|].
        intros Hall. inversion Hall. tauto.
      * exact IH.
    + rewrite (TLV_MarshalBinary_invalid t Hv). cbn [rbind].
      split; [reflexivity|]. intros Hall. inversion Hall. tauto.
Qed.

Lemma copy_step0 (post src : bytes) :
  length src <= length post ->
  update_slice post 0 (0 + length src) (fun w => Ok (copy w src))
  = Ok (src ++ skipn (length src) post).
Proof. intros H. exact (copy_step [] post src 0 eq_refl H). Qed.

Lemma skipn_make (k m : nat) : skipn k (make m) = make (m - k).
Proof.
  unfold make. revert k. induction m as [|m IH]; intros [|k]; cbn; auto.
Qed.

Lemma ttl_TLV_valid (ttl : N) : TLV_valid (ttl_TLV ttl).
Proof. repeat split. all: vm_compute; congruence. Qed.

Lemma Frame_MarshalBinary_cases (f : Frame) (c : ChassisID) (p : PortID) :
  Frame_ChassisID f = Some c ->
  Frame_PortID f = Some p ->
  (Z.quot (Frame_TTL f) Second <= MaxUint16)%Z ->
  match Frame_MarshalBinary f with
  | Ok bs =>
      exists ts : list TLV,
        Frame_Optional f = map Some ts /\
        TLV_valid (chassis_TLV c) /\ TLV_valid (port_TLV p) /\
        Forall TLV_valid ts /\
        bs = Frame_wire c p (uint16_of_Z (Z.quot (Frame_TTL f) Second)) ts
  | Err e => e = ErrInvalidTLV
  | Panic => In None (Frame_Optional f)
  end.
Proof.
  intros Hc Hp Httl. unfold Frame_MarshalBinary, Frame_length.
  rewrite Hc, Hp. cbn [is_nil deref rbind].
  destruct (Z.ltb_spec MaxUint16 (Z.quot (Frame_TTL f) Second)); [lia|].
  pose proof (length_loop (Frame_Optional f)
                (0 + (2 + 1 + length (ChassisID_ID c))
                 + (2 + 1 + length (PortID_ID p)) + (2 + 2))) as Hl.
  destruct (for_range (Frame_Optional f) _ _) as [m| |]; cbn [rbind];
    [|contradiction|exact Hl].
  destruct Hl as (ts & Hts & Hm).
  rewrite ChassisID_MarshalBinary_wire. cbn [rbind].
  change (mkTLV TLVTypeChassisID _ _) with (chassis_TLV c).
  destruct (TLV_valid_dec (chassis_TLV c)) as [Hvc|Hvc];
    [|now rewrite (TLV_MarshalBinary_invalid _ Hvc)].
  rewrite (TLV_MarshalBinary_valid _ Hvc). cbn [rbind].
  set (w1 := TLV_wire (chassis_TLV c)).
  assert (Hw1 : length w1 = 2 + 1 + length (ChassisID_ID c)) by reflexivity.
  rewrite copy_step0 by (rewrite make_length; lia).
  cbn [rbind]. rewrite skipn_make.
  rewrite PortID_MarshalBinary_wire. cbn [rbind].
  change (mkTLV TLVTypePortID _ _) with (port_TLV p).
  destruct (TLV_valid_dec (port_TLV p)) as [Hvp|Hvp];
    [|now rewrite (TLV_MarshalBinary_invalid _ Hvp)].
  rewrite (TLV_MarshalBinary_valid _ Hvp). cbn [rbind].
  set (w2 := TLV_wire (port_TLV p)).
  assert (Hw2 : length w2 = 2 + 1 + length (PortID_ID p)) by reflexivity.
  rewrite copy_step
    by (rewrite ?make_length, ?length_app; cbn [length]; lia).
  cbn [rbind]. rewrite skipn_make.
  change (BigEndian_PutUint16 (make 2) ?v)
    with (Ok [byte_of_N (N.shiftr v 8); byte_of_N v]).
  cbn [rbind].
  change (mkTLV TLVTypeTTL _ _)
    with (ttl_TLV (uint16_of_Z (Z.quot (Frame_TTL f) Second))).
  rewrite (TLV_MarshalBinary_valid _ (ttl_TLV_valid _)). cbn [rbind].
  set (w3 := TLV_wire (ttl_TLV _)).
  assert (Hw3 : length w3 = 2 + 2) by reflexivity.
  rewrite copy_step
    by (rewrite ?make_length, ?length_app; cbn [length]; lia).
  cbn [rbind]. rewrite skipn_make, Hts.
  pose proof (marshal_loop ts ((w1 ++ w2) ++ w3)
                (make (m + 2 - length w1 - length w2 - length w3))
                (0 + length w1 + length w2 + length w3)) as Hloop.
  rewrite !length_app, make_length in Hloop.
  specialize (Hloop ltac:(lia) ltac:(lia)).
  destruct (for_range (map Some ts) _ _) as [bn|e|]; cbn [rbind].
  - destruct Hloop as [Hall Hb]. exists ts.
    split; [reflexivity|]. split; [assumption|]. split; [assumption|].
    split; [assumption|].
    rewrite Hb, skipn_make. unfold Frame_wire. fold w1 w2 w3.
    replace (m + 2 - length w1 - length w2 - length w3
             - length (TLVs_wire ts)) with 2 by lia.
    now rewrite <- !app_assoc.
  - tauto.
  - contradiction.
Qed.

Lemma ttl_TLV_wire (ttl : N) :
  TLV_wire (ttl_TLV ttl)
  = [x06; x02; byte_of_N (N.shiftr ttl 8); byte_of_N ttl].
Proof. reflexivity. Qed.

(** C6 (Frame encode preconditions).  [Frame.MarshalBinary] returns
    [ErrInvalidFrame] when [ChassisID] is nil, when [PortID] is nil, or
    when the TTL in whole seconds (truncating division) exceeds 65535.
    The outcome carries no bytes, and it is this error whatever the
    optional TLVs are: the checks come before the buffer is sized and
    before any TLV is encoded. *)
Theorem C6_Frame_MarshalBinary_preconditions (f : Frame) :
  Frame_ChassisID f = None \/
  Frame_PortID f = None \/
  (65535 < Z.quot (Frame_TTL f) Second)%Z ->
  Frame_MarshalBinary f = Err ErrInvalidFrame.
Proof.
  intros H. unfold Frame_MarshalBinary.
  destruct (Frame_ChassisID f) as [c|]; [|reflexivity].
  destruct (Frame_PortID f) as [p|]; [|reflexivity].
  cbn [is_nil].
  destruct H as [H|[H|H]]; try discriminate.
  unfold MaxUint16.
  destruct (Z.ltb_spec 65535 (Z.quot (Frame_TTL f) Second)); [reflexivity|lia].
Qed.

Lemma C6_Frame_MarshalBinary_preconditions_witness :
  Frame_MarshalBinary
    (mkFrame (Some new_ChassisID) (Some new_PortID) (65536 * Second)%Z [None])
  = Err ErrInvalidFrame.
Proof.
  apply C6_Frame_MarshalBinary_preconditions.
  right. right. vm_compute. reflexivity.
Defined.

Example marshal_minus_one_second :
  Frame_MarshalBinary
    (mkFrame (Some (mkChassisID x04 [x0a])) (Some (mkPortID x05 [x0b]))
             (- Second)%Z [])
  = Ok [x02; x02; x04; x0a; x04; x02; x05; x0b; x06; x02; xff; xff;
        x00; x00].
Proof. vm_compute. reflexivity. Qed.

(** ** Frame decoding: the TLV loop *)

(** A unit that [TLV.UnmarshalBinary] has decoded satisfies the TLV
    invariant and leaves at least its own bytes consumed. *)
Lemma TLV_UnmarshalBinary_Ok (b : bytes) (t0 t : TLV) :
  TLV_UnmarshalBinary b t0 = (t, Ok tt) ->
  TLV_valid t /\ 2 + N.to_nat (TLV_Length t) <= length b.
Proof.
  destruct b as [|b0 [|b1 rest]];
    try (rewrite TLV_UnmarshalBinary_short by (cbn; lia); discriminate).
  rewrite TLV_UnmarshalBinary_header. cbv zeta.
  assert (Hlen : (be16 b0 b1 mod 512 < 512)%N)
    by (apply N.mod_upper_bound; lia).
  set (len := (be16 b0 b1 mod 512)%N) in *. clearbody len.
  destruct (shifted_type_bound b0) as [Hty Hty127]. rewrite <- Hty in Hty127.
  set (ty := byte_of_N (N.shiftr (Byte.to_N b0) 1)) in *. clearbody ty.
  destruct (Nat.ltb_spec (length rest) (N.to_nat len)); [discriminate|].
  intros [= <-]. unfold TLV_valid. cbn [TLV_Type TLV_Length TLV_Value length].
  rewrite length_firstn. repeat split; trivial; lia.
Qed.

Lemma read_TLVs_total (fuel : nat) :
  forall (b : bytes) (l : nat) (acc : list TLV),
    length b - l <= fuel -> read_TLVs fuel b l acc <> None.
Proof.
  induction fuel as [|fuel IH]; intros b l acc Hfuel; cbn [read_TLVs].
  - unfold slice_from, slice.
    destruct ((l <=? length b)%nat && (length b <=? length b)%nat);
      [|discriminate].
    rewrite firstn_all2 by (rewrite length_skipn; lia).
    rewrite length_skipn.
    destruct (Nat.ltb_spec 0 (length b - l)); [lia|discriminate].
  - destruct (slice_from b l) as [rest| |]; try discriminate.
    destruct (0 <? length rest)%nat; [|discriminate].
    destruct (TLV_UnmarshalBinary rest new_TLV) as [t [[]| |]] eqn:E;
      try discriminate.
    apply IH. lia.
Qed.

(** More fuel never changes an outcome. *)
Lemma read_TLVs_fuel_mono (fuel : nat) :
  forall (fuel' : nat) (b : bytes) (l : nat) (acc : list TLV)
         (r : result (list TLV)),
    fuel <= fuel' ->
    read_TLVs fuel b l acc = Some r -> read_TLVs fuel' b l acc = Some r.
Proof.
  induction fuel as [|fuel IH]; intros [|fuel'] b l acc r Hle;
    cbn [read_TLVs]; try lia; try tauto;
    destruct (slice_from b l) as [rest| |]; try tauto;
    destruct (0 <? length rest)%nat; try tauto; try discriminate.
  destruct (TLV_UnmarshalBinary rest new_TLV) as [t [[]| |]]; try tauto.
  apply IH. lia.
Qed.

Lemma read_TLVs_valid (fuel : nat) :
  forall (b : bytes) (l : nat) (acc tts : list TLV),
    read_TLVs fuel b l acc = Some (Ok tts) ->
    Forall TLV_valid acc -> Forall TLV_valid tts.
Proof.
  induction fuel as [|fuel IH]; intros b l acc tts; cbn [read_TLVs];
    destruct (slice_from b l) as [rest| |]; try discriminate;
    destruct (0 <? length rest)%nat; try discriminate.
  - now intros [= <-].
  - destruct (TLV_UnmarshalBinary rest new_TLV) as [t [[]| |]] eqn:E;
      try discriminate.
    intros Hrec Hacc. apply (IH _ _ _ _ Hrec).
    apply Forall_app. split; [exact Hacc|].
    constructor; [|constructor].
    now apply (TLV_UnmarshalBinary_Ok rest new_TLV).
  - now intros [= <-].
Qed.

Lemma Frame_TLVs_valid (b : bytes) (tts : list TLV) :
  Frame_TLVs b = Ok tts -> Forall TLV_valid tts.
Proof.
  unfold Frame_TLVs.
  destruct (read_TLVs (length b) b 0 []) as [r|] eqn:E; [|discriminate].
  intros ->. apply (read_TLVs_valid _ _ _ _ _ E). constructor.
Qed.

(** The loop never runs out of fuel. *)
Lemma Frame_TLVs_fuel (b : bytes) :
  read_TLVs (length b) b 0 [] = Some (Frame_TLVs b).
Proof.
  unfold Frame_TLVs.
  destruct (read_TLVs (length b) b 0 []) eqn:E; [reflexivity|].
  exfalso. revert E. apply read_TLVs_total. lia.
Qed.

Lemma Frame_TLVs_any_fuel (b : bytes) (fuel : nat) :
  length b <= fuel -> read_TLVs fuel b 0 [] = Some (Frame_TLVs b).
Proof.
  intros H. apply (read_TLVs_fuel_mono (length b)); [exact H|].
  apply Frame_TLVs_fuel.
Qed.

Lemma TLVs_wire_app (xs ys : list TLV) :
  TLVs_wire (xs ++ ys) = TLVs_wire xs ++ TLVs_wire ys.
Proof. unfold TLVs_wire. now rewrite map_app, concat_app. Qed.

Lemma TLVs_wire_min_length (ts : list TLV) :
  2 * length ts <= length (TLVs_wire ts).
Proof.
  induction ts as [|t ts IH]; [cbn; lia|].
  rewrite TLVs_wire_cons, length_app, TLV_wire_length. cbn [length]. lia.
Qed.

(** Reading back a run of encoded valid TLVs. *)
Lemma read_TLVs_wire (ts : list TLV) :
  forall (fuel : nat) (pre : bytes) (acc : list TLV),
    Forall TLV_valid ts -> length ts <= fuel ->
    read_TLVs fuel (pre ++ TLVs_wire ts) (length pre) acc
    = Some (Ok (acc ++ ts)).
Proof.
  induction ts as [|t ts IH]; intros fuel pre acc Hall Hfuel.
  - cbn [TLVs_wire map concat]. rewrite !app_nil_r.
    destruct fuel; cbn [read_TLVs];
      rewrite slice_from_ok, skipn_all by lia; reflexivity.
  - inversion Hall as [|? ? Hv Hall']; subst.
    destruct fuel as [|fuel]; [cbn in Hfuel; lia|].
    cbn [read_TLVs].
    rewrite slice_from_ok by (rewrite length_app; lia).
    rewrite skipn_app, skipn_all, Nat.sub_diag. cbn [skipn app].
    rewrite TLVs_wire_cons.
    assert (Hpos : (0 <? length (TLV_wire t ++ TLVs_wire ts))%nat = true).
    { apply Nat.ltb_lt. rewrite length_app, TLV_wire_length. lia. }
    rewrite Hpos, (TLV_UnmarshalBinary_wire t _ new_TLV Hv).
    destruct Hv as (_ & _ & Hval).
    replace (length pre + (2 + N.to_nat (TLV_Length t)))
      with (length (pre ++ TLV_wire t))
      by (rewrite length_app, TLV_wire_length; lia).
    rewrite (app_assoc pre), IH by (trivial; cbn in Hfuel; lia).
    now rewrite <- app_assoc.
Qed.

Lemma Frame_TLVs_wire (ts : list TLV) :
  Forall TLV_valid ts -> Frame_TLVs (TLVs_wire ts) = Ok ts.
Proof.
  intros Hall. unfold Frame_TLVs.
  pose proof (read_TLVs_wire ts (length (TLVs_wire ts)) [] [] Hall) as H.
  cbn [app length] in H. rewrite H; [reflexivity|].
  pose proof (TLVs_wire_min_length ts). lia.
Qed.

(** ** Frame decoding: the positional phase *)

Lemma units_shape (tts : list TLV) :
  4 <= length tts ->
  exists t0 t1 t2 mid tn, tts = t0 :: t1 :: t2 :: mid ++ [tn].
Proof.
  destruct tts as [|t0 [|t1 [|t2 rest]]]; cbn [length]; try lia.
  intros H. destruct (exists_last (l := rest)) as (mid & tn & ->).
  - intros ->. cbn in H. lia.
  - now exists t0, t1, t2, mid, tn.
Qed.

Lemma index_last (t0 t1 t2 tn : TLV) (mid : list TLV) :
  index (t0 :: t1 :: t2 :: mid ++ [tn])
        (length (t0 :: t1 :: t2 :: mid ++ [tn]) - 1) = Ok tn.
Proof.
  unfold index.
  replace (length (t0 :: t1 :: t2 :: mid ++ [tn]) - 1)
    with (S (S (S (length mid))))
    by (cbn [length]; rewrite length_app; cbn [length]; lia).
  cbn [nth_error].
  rewrite nth_error_app2, Nat.sub_diag by lia. reflexivity.
Qed.

Lemma slice_middle (t0 t1 t2 tn : TLV) (mid : list TLV) :
  slice (t0 :: t1 :: t2 :: mid ++ [tn]) 3
        (length (t0 :: t1 :: t2 :: mid ++ [tn]) - 1) = Ok mid.
Proof.
  rewrite slice_ok.
  - f_equal. cbn [length skipn]. rewrite length_app. cbn [length].
    replace (S (S (S (length mid + 1))) - 1 - 3) with (length mid) by lia.
    rewrite firstn_app, firstn_all, Nat.sub_diag. cbn [firstn].
    apply app_nil_r.
  - cbn [length]. rewrite length_app. cbn [length]. lia.
  - cbn [length]. lia.
Qed.

(** The positional phase of [Frame.UnmarshalBinary] as a decision tree
    over the decoded units. *)
Lemma Frame_UnmarshalBinary_units (b : bytes) (f : Frame)
    (t0 t1 t2 tn : TLV) (mid : list TLV) :
  Frame_TLVs b = Ok (t0 :: t1 :: t2 :: mid ++ [tn]) ->
  Frame_UnmarshalBinary b f =
  if negb (Byte.eqb (TLV_Type t0) TLVTypeChassisID)
  then (f, Err ErrInvalidFrame)
  else
    match TLV_Value t0 with
    | [] => (set_Frame_ChassisID (Some new_ChassisID) f, Err ErrUnexpectedEOF)
    | cs :: cid =>
      let f1 := set_Frame_ChassisID (Some (mkChassisID cs cid)) f in
      if negb (Byte.eqb (TLV_Type t1) TLVTypePortID)
      then (f1, Err ErrInvalidFrame)
      else
        match TLV_Value t1 with
        | [] => (set_Frame_PortID (Some new_PortID) f1, Err ErrUnexpectedEOF)
        | ps :: pid =>
          let f2 := set_Frame_PortID (Some (mkPortID ps pid)) f1 in
          if negb (Byte.eqb (TLV_Type t2) TLVTypeTTL)
             || negb (TLV_Length t2 =? 2)%N
          then (f2, Err ErrInvalidFrame)
          else
            match BigEndian_Uint16 (TLV_Value t2) with
            | Ok secs =>
              let f3 := set_Frame_TTL (int64 (Z.of_N secs * Second)) f2 in
              if negb (Byte.eqb (TLV_Type tn) TLVTypeEnd)
                 || negb (TLV_Length tn =? 0)%N
              then (f3, Err ErrInvalidFrame)
              else (set_Frame_Optional (map Some mid) f3, Ok tt)
            | Err e => (f2, Err e)
            | Panic => (f2, Panic)
            end
        end
    end.
Proof.
  intros Htt. unfold Frame_UnmarshalBinary.
  unfold mbind at 1. rewrite Htt. cbn [lift].
  set (tts := t0 :: t1 :: t2 :: mid ++ [tn]).
  assert (H4 : (length tts <? 4)%nat = false).
  { apply Nat.ltb_ge. unfold tts. cbn [length]. rewrite length_app.
    cbn [length]. lia. }
  rewrite H4.
  mstep. change (index tts 0) with (Ok t0).
  cbv iota.
  destruct (negb (Byte.eqb (TLV_Type t0) TLVTypeChassisID)); [reflexivity|].
  mstep.
  unfold mbind at 1. unfold via_ChassisID at 1.
  cbn [set_Frame_ChassisID Frame_ChassisID].
  destruct (TLV_Value t0) as [|cs cid].
  { rewrite ChassisID_UnmarshalBinary_nil. reflexivity. }
  rewrite ChassisID_UnmarshalBinary_cons.
  cbn [Frame_PortID Frame_TTL Frame_Optional].
  mstep. change (index tts 1) with (Ok t1).
  cbv iota zeta.
  destruct (negb (Byte.eqb (TLV_Type t1) TLVTypePortID)); [reflexivity|].
  mstep.
  unfold mbind at 1. unfold via_PortID at 1.
  cbn [set_Frame_PortID Frame_PortID].
  destruct (TLV_Value t1) as [|ps pid].
  { rewrite PortID_UnmarshalBinary_nil. reflexivity. }
  rewrite PortID_UnmarshalBinary_cons.
  cbn [Frame_ChassisID Frame_TTL Frame_Optional].
  mstep. change (index tts 2) with (Ok t2).
  cbv iota.
  destruct (negb (Byte.eqb (TLV_Type t2) TLVTypeTTL)
            || negb (TLV_Length t2 =? 2)%N); [reflexivity|].
  mstep.
  destruct (BigEndian_Uint16 (TLV_Value t2)) as [secs|e|]; try reflexivity.
  mstep.
  mstep. unfold tts at 1 2. rewrite index_last.
  destruct (negb (Byte.eqb (TLV_Type tn) TLVTypeEnd)
            || negb (TLV_Length tn =? 0)%N); [reflexivity|].
  mstep. unfold tts. rewrite slice_middle.
  reflexivity.
Qed.

Lemma Frame_UnmarshalBinary_few (b : bytes) (f : Frame) (tts : list TLV) :
  Frame_TLVs b = Ok tts -> length tts < 4 ->
  Frame_UnmarshalBinary b f = (f, Err ErrUnexpectedEOF).
Proof.
  intros Htt Hlen. unfold Frame_UnmarshalBinary, mbind at 1.
  rewrite Htt. cbn [lift].
  destruct (Nat.ltb_spec (length tts) 4); [reflexivity|lia].
Qed.

Lemma Frame_UnmarshalBinary_Ok_units (b : bytes) (f f' : Frame) :
  Frame_UnmarshalBinary b f = (f', Ok tt) ->
  exists t0 t1 t2 mid tn, Frame_TLVs b = Ok (t0 :: t1 :: t2 :: mid ++ [tn]).
Proof.
  destruct (Frame_TLVs b) as [tts|e|] eqn:Htt.
  - destruct (Nat.lt_ge_cases (length tts) 4) as [Hlt|Hge].
    + rewrite (Frame_UnmarshalBinary_few b f tts Htt Hlt). discriminate.
    + intros _. destruct (units_shape tts Hge) as (t0 & t1 & t2 & mid & tn & ->).
      now exists t0, t1, t2, mid, tn.
  - unfold Frame_UnmarshalBinary, mbind at 1. rewrite Htt. discriminate.
  - unfold Frame_UnmarshalBinary, mbind at 1. rewrite Htt. discriminate.
Qed.

Lemma byte_eqb_true (a b : byte) : Byte.eqb a b = true <-> a = b.
Proof. split; [apply Byte.byte_dec_bl|apply Byte.byte_dec_lb]. Qed.

Lemma negb_byte_eqb (a b : byte) : negb (Byte.eqb a b) = false <-> a = b.
Proof. rewrite negb_false_iff. apply byte_eqb_true. Qed.

Lemma check2_false (a b : byte) (n m : N) :
  negb (Byte.eqb a b) || negb (n =? m)%N = false <-> a = b /\ n = m.
Proof.
  rewrite orb_false_iff, negb_byte_eqb, negb_false_iff, N.eqb_eq. tauto.
Qed.

Lemma positional_units (t0 t1 t2 tn : TLV) (mid : list TLV) :
  positional (t0 :: t1 :: t2 :: mid ++ [tn]) <->
  TLV_Type t0 = TLVTypeChassisID /\
  TLV_Type t1 = TLVTypePortID /\
  (TLV_Type t2 = TLVTypeTTL /\ TLV_Length t2 = 2%N) /\
  (TLV_Type tn = TLVTypeEnd /\ TLV_Length tn = 0%N).
Proof.
  unfold positional.
  pose proof (index_last t0 t1 t2 tn mid) as Hlast. unfold index in Hlast.
  destruct (nth_error _ (length _ - 1)) as [x|] eqn:E; [|discriminate].
  injection Hlast as ->. cbn [nth_error]. split.
  - intros ((x0 & [= <-] & P0) & (x1 & [= <-] & P1) & (x2 & [= <-] & P2)
            & (xn & [= <-] & Pn)). tauto.
  - intros (P0 & P1 & P2 & Pn). repeat split; eauto.
Qed.

Lemma empty_identifier_first_units (t0 t1 : TLV) (rest : list TLV) :
  empty_identifier_first (t0 :: t1 :: rest) <->
  (TLV_Type t0 = TLVTypeChassisID /\ TLV_Value t0 = []) \/
  (TLV_Type t0 = TLVTypeChassisID /\ TLV_Value t0 <> [] /\
   TLV_Type t1 = TLVTypePortID /\ TLV_Value t1 = []).
Proof.
  unfold empty_identifier_first. cbn [nth_error]. split.
  - intros [(x0 & [= <-] & H)|(x0 & x1 & [= <-] & [= <-] & H)]; tauto.
  - intros [H|H]; [left; exists t0|right; exists t0, t1]; tauto.
Qed.

Lemma Uint16_two (v : bytes) :
  length v = 2 -> exists secs, BigEndian_Uint16 v = Ok secs.
Proof.
  destruct v as [|b0 [|b1 [|]]]; try discriminate. intros _.
  eexists. apply Uint16_word.
Qed.

(** C4 (Frame decode validation), amended.  When the input splits into
    fewer than four units the decode fails with [io.ErrUnexpectedEOF].
    When it splits into four or more and the positional requirements
    (unit 0 chassis ID, unit 1 port ID, unit 2 TTL of length 2, last unit
    kind 0 of length 0) do not all hold, the decode fails: with
    [io.ErrUnexpectedEOF] when an identifier unit without its subtype
    byte is met first, with [ErrInvalidFrame] otherwise. *)
Theorem C4_positional_validation (b : bytes) (f : Frame) (tts : list TLV) :
  Frame_TLVs b = Ok tts ->
  (length tts < 4 ->
   snd (Frame_UnmarshalBinary b f) = Err ErrUnexpectedEOF) /\
  (4 <= length tts -> ~ positional tts ->
   (empty_identifier_first tts /\
    snd (Frame_UnmarshalBinary b f) = Err ErrUnexpectedEOF) \/
   (~ empty_identifier_first tts /\
    snd (Frame_UnmarshalBinary b f) = Err ErrInvalidFrame)).
Proof.
  intros Htt. split.
  - intros Hlt. now rewrite (Frame_UnmarshalBinary_few b f tts Htt Hlt).
  - intros Hge Hpos.
    destruct (units_shape tts Hge) as (t0 & t1 & t2 & mid & tn & ->).
    pose proof (Frame_TLVs_valid b _ Htt) as Hvalid.
    rewrite (Frame_UnmarshalBinary_units b f t0 t1 t2 tn mid Htt).
    rewrite positional_units in Hpos.
    rewrite empty_identifier_first_units.
    destruct (negb (Byte.eqb (TLV_Type t0) TLVTypeChassisID)) eqn:E0.
    { right. split; [|reflexivity].
      apply negb_true_iff, Byte.eqb_false in E0. tauto. }
    apply negb_byte_eqb in E0.
    destruct (TLV_Value t0) as [|cs cid] eqn:V0.
    { left. split; [left; tauto|reflexivity]. }
    cbv zeta.
    destruct (negb (Byte.eqb (TLV_Type t1) TLVTypePortID)) eqn:E1.
    { right. split; [|reflexivity].
      apply negb_true_iff, Byte.eqb_false in E1.
      intros [[_ H]|(_ & _ & H & _)]; [discriminate|tauto]. }
    apply negb_byte_eqb in E1.
    destruct (TLV_Value t1) as [|ps pid] eqn:V1.
    { left. split; [right; repeat split; trivial; discriminate|reflexivity]. }
    right. split.
    { intros [[_ H]|(_ & _ & _ & H)]; discriminate. }
    destruct (negb (Byte.eqb (TLV_Type t2) TLVTypeTTL)
              || negb (TLV_Length t2 =? 2)%N) eqn:E2; [reflexivity|].
    apply check2_false in E2.
    assert (Hv2 : TLV_valid t2).
    { inversion Hvalid as [|? ? _ Hv]; subst.
      inversion Hv as [|? ? _ Hv']; subst.
      now inversion Hv'. }
    destruct Hv2 as (_ & _ & Hlen2).
    destruct (Uint16_two (TLV_Value t2)) as [secs ->].
    { rewrite <- Hlen2. destruct E2 as [_ ->]. reflexivity. }
    destruct (negb (Byte.eqb (TLV_Type tn) TLVTypeEnd)
              || negb (TLV_Length tn =? 0)%N) eqn:En; [reflexivity|].
    apply check2_false in En. tauto.
Qed.

(** The repository's test "first TLV not chassis ID type". *)
Lemma C4_positional_validation_witness :
  Frame_TLVs [x04; x00; x00; x00; x00; x00; x00; x00]
  = Ok [mkTLV x02 0 []; end_TLV; end_TLV; end_TLV] /\
  ~ positional [mkTLV x02 0 []; end_TLV; end_TLV; end_TLV] /\
  ~ empty_identifier_first [mkTLV x02 0 []; end_TLV; end_TLV; end_TLV] /\
  snd (Frame_UnmarshalBinary
         [x04; x00; x00; x00; x00; x00; x00; x00] new_Frame)
  = Err ErrInvalidFrame.
Proof.
  assert (Hpos : ~ positional [mkTLV x02 0 []; end_TLV; end_TLV; end_TLV]).
  { intros ((t0 & [= <-] & Ht) & _). discriminate. }
  split; [reflexivity|]. split; [exact Hpos|].
  destruct (C4_positional_validation
              [x04; x00; x00; x00; x00; x00; x00; x00] new_Frame
              [mkTLV x02 0 []; end_TLV; end_TLV; end_TLV] eq_refl)
    as [_ H].
  destruct (H (le_n 4) Hpos) as [[_ E]|H'].
  - vm_compute in E. discriminate.
  - exact H'.
Defined.

(** C4 as stated fails: four units, unit 0 a chassis ID TLV with an empty
    value, unit 1 not a port ID.  The requirements do not hold, yet the
    error is [io.ErrUnexpectedEOF], raised by [ChassisID.UnmarshalBinary]
    before unit 1 is looked at. *)
Lemma C4_counterexample :
  ~ C4_as_stated [x02; x00; x00; x00; x00; x00; x00; x00] new_Frame.
Proof.
  intros H.
  destruct (H [mkTLV x01 0 []; end_TLV; end_TLV; end_TLV] eq_refl)
    as [_ Hbad].
  assert (E : snd (Frame_UnmarshalBinary
                     [x02; x00; x00; x00; x00; x00; x00; x00] new_Frame)
              = Err ErrUnexpectedEOF) by (vm_compute; reflexivity).
  rewrite E in Hbad.
  enough (Err ErrUnexpectedEOF = @Err unit ErrInvalidFrame) by discriminate.
  apply Hbad.
  - cbn. lia.
  - intros (_ & (t1 & [= <-] & Ht) & _). discriminate.
Qed.

(** C7 as stated fails: a second zero-length unit of kind 0 before the
    final one is kept in [Optional]. *)
Lemma C7_counterexample :
  ~ C7_as_stated
      [x02; x01; x00; x04; x01; x00; x06; x02; x00; x00;
       x00; x00; x00; x00] new_Frame.
Proof.
  intros H. apply (H eq_refl end_TLV); [|reflexivity].
  vm_compute. left. reflexivity.
Qed.

(** C7 (terminator not retained), amended.  On every successful decode
    [Optional] is exactly the run of units strictly between unit 2 and the
    last unit, in order; the last unit is a terminator (kind 0, length 0)
    and is not retained.  Units of kind 0 before the last position are
    kept like any other optional unit. *)
Theorem C7_Optional_is_middle (b : bytes) (f f' : Frame) :
  Frame_UnmarshalBinary b f = (f', Ok tt) ->
  exists (t0 t1 t2 tn : TLV) (mid : list TLV),
    Frame_TLVs b = Ok (t0 :: t1 :: t2 :: mid ++ [tn]) /\
    Frame_Optional f' = map Some mid /\
    TLV_Type tn = TLVTypeEnd /\ TLV_Length tn = 0%N.
Proof.
  intros Hok.
  destruct (Frame_UnmarshalBinary_Ok_units b f f' Hok)
    as (t0 & t1 & t2 & mid & tn & Htt).
  exists t0, t1, t2, tn, mid. split; [exact Htt|].
  rewrite (Frame_UnmarshalBinary_units b f t0 t1 t2 tn mid Htt) in Hok.
  destruct (negb (Byte.eqb (TLV_Type t0) TLVTypeChassisID));
    [discriminate|].
  destruct (TLV_Value t0); [discriminate|]. cbv zeta in Hok.
  destruct (negb (Byte.eqb (TLV_Type t1) TLVTypePortID)); [discriminate|].
  destruct (TLV_Value t1); [discriminate|].
  destruct (negb (Byte.eqb (TLV_Type t2) TLVTypeTTL)
            || negb (TLV_Length t2 =? 2)%N); [discriminate|].
  destruct (BigEndian_Uint16 (TLV_Value t2)); try discriminate.
  destruct (negb (Byte.eqb (TLV_Type tn) TLVTypeEnd)
            || negb (TLV_Length tn =? 0)%N) eqn:En; [discriminate|].
  apply check2_false in En. injection Hok as <-. tauto.
Qed.

Lemma C7_Optional_is_middle_witness :
  exists (t0 t1 t2 tn : TLV) (mid : list TLV),
    Frame_TLVs
      [x02; x01; x00; x04; x01; x00; x06; x02; x00; x00;
       x00; x00; x00; x00]
    = Ok (t0 :: t1 :: t2 :: mid ++ [tn]) /\
    Frame_Optional
      (mkFrame (Some (mkChassisID x00 [])) (Some (mkPortID x00 [])) 0%Z
               [Some end_TLV])
    = map Some mid /\
    TLV_Type tn = TLVTypeEnd /\ TLV_Length tn = 0%N.
Proof.
  apply (C7_Optional_is_middle
           [x02; x01; x00; x04; x01; x00; x06; x02; x00; x00;
            x00; x00; x00; x00] new_Frame).
  vm_compute. reflexivity.
Defined.

(** C10 (decode is not atomic).  There is an input on which
    [Frame.UnmarshalBinary] returns [ErrInvalidFrame] from the check of
    unit 1 and leaves the receiver changed: [ChassisID], nil before the
    call, holds the identifier decoded from unit 0. *)
Theorem C10_decode_not_atomic :
  exists (b : bytes) (f : Frame),
    snd (Frame_UnmarshalBinary b f) = Err ErrInvalidFrame /\
    Frame_ChassisID f = None /\
    Frame_ChassisID (fst (Frame_UnmarshalBinary b f))
    = Some (mkChassisID x07 [x61]) /\
    fst (Frame_UnmarshalBinary b f) <> f.
Proof.
  exists [x02; x02; x07; x61; x02; x00; x00; x00; x00; x00], new_Frame.
  repeat split; try (vm_compute; reflexivity).
  vm_compute. discriminate.
Qed.

(** ** Frame round-trip *)

Lemma end_TLV_valid : TLV_valid end_TLV.
Proof. repeat split. all: vm_compute; congruence. Qed.

Lemma Frame_wire_units (c : ChassisID) (p : PortID) (ttl : N)
    (ts : list TLV) :
  Frame_wire c p ttl ts
  = TLVs_wire (chassis_TLV c :: port_TLV p :: ttl_TLV ttl :: ts ++ [end_TLV]).
Proof.
  unfold Frame_wire. rewrite !TLVs_wire_cons, TLVs_wire_app. reflexivity.
Qed.

Lemma int64_small (z : Z) :
  (- 2 ^ 63 <= z < 2 ^ 63)%Z -> int64 z = z.
Proof. intros H. unfold int64. rewrite Z.mod_small; lia. Qed.

Lemma whole_seconds (s : Z) :
  (0 <= s <= 65535)%Z ->
  Z.quot (s * Second) Second = s /\
  uint16_of_Z s = Z.to_N s /\
  (Z.to_N s < 65536)%N /\
  int64 (Z.of_N (Z.to_N s) * Second) = (s * Second)%Z.
Proof.
  intros Hs. repeat split.
  - apply Z.quot_mul. discriminate.
  - unfold uint16_of_Z. rewrite Z.mod_small; lia.
  - lia.
  - rewrite Z2N.id by lia. apply int64_small. unfold Second. lia.
Qed.

(** C1 (Frame round-trip).  For a frame with both identifiers present
    and a TTL of a whole number of seconds between 0 and 65535, with any
    list of optional TLVs: when [Frame.MarshalBinary] succeeds, decoding
    its bytes gives a frame with the same [ChassisID], [PortID], [TTL] and
    [Optional] (in order), whatever the receiver held before. *)
Theorem C1_Frame_roundtrip (f f0 : Frame) (bs : bytes) (s : Z) :
  Frame_ChassisID f <> None ->
  Frame_PortID f <> None ->
  (0 <= s <= 65535)%Z ->
  Frame_TTL f = (s * Second)%Z ->
  Frame_MarshalBinary f = Ok bs ->
  Frame_UnmarshalBinary bs f0 = (f, Ok tt).
Proof.
  intros Hc Hp Hs Httl Hm.
  destruct f as [[c|] [p|] ttl opts]; cbn in Hc, Hp, Httl; try congruence.
  subst ttl.
  destruct (whole_seconds s Hs) as (Hq & Hu & Hlt & Hi).
  pose proof (Frame_MarshalBinary_cases
                (mkFrame (Some c) (Some p) (s * Second)%Z opts) c p
                eq_refl eq_refl) as H.
  cbn [Frame_TTL Frame_Optional] in H. rewrite Hq, Hu in H.
  unfold MaxUint16 in H. specialize (H ltac:(lia)).
  rewrite Hm in H. destruct H as (ts & -> & Hvc & Hvp & Hall & ->).
  rewrite Frame_wire_units.
  rewrite (Frame_UnmarshalBinary_units _ f0 (chassis_TLV c) (port_TLV p)
             (ttl_TLV (Z.to_N s)) end_TLV ts).
  - cbn [chassis_TLV port_TLV ttl_TLV end_TLV TLV_Type TLV_Length TLV_Value].
    change (negb (Byte.eqb TLVTypeChassisID TLVTypeChassisID)) with false.
    change (negb (Byte.eqb TLVTypePortID TLVTypePortID)) with false.
    change (negb (Byte.eqb TLVTypeTTL TLVTypeTTL) || negb (2 =? 2)%N)
      with false.
    change (negb (Byte.eqb TLVTypeEnd TLVTypeEnd) || negb (0 =? 0)%N)
      with false.
    cbv iota zeta.
    rewrite Uint16_word. fold (be16 (byte_of_N (N.shiftr (Z.to_N s) 8))
                                    (byte_of_N (Z.to_N s))).
    rewrite be16_bytes by exact Hlt. rewrite Hi.
    destruct c, p. reflexivity.
  - apply Frame_TLVs_wire.
    repeat (constructor; [assumption || apply ttl_TLV_valid|]).
    apply Forall_app. split; [exact Hall|].
    constructor; [apply end_TLV_valid|constructor].
Qed.

Lemma C1_Frame_roundtrip_witness :
  Frame_UnmarshalBinary test_frame_bytes new_Frame = (test_frame, Ok tt).
Proof.
  apply (C1_Frame_roundtrip test_frame new_Frame test_frame_bytes 255).
  - discriminate.
  - discriminate.
  - lia.
  - reflexivity.
  - vm_compute. reflexivity.
Defined.

(** * Further properties of the codec *)

(** ** Decoding inverts encoding on the bytes it consumes *)

Lemma be16_split (b0 b1 : byte) :
  byte_of_N (N.shiftr (be16 b0 b1) 8) = b0 /\ byte_of_N (be16 b0 b1) = b1.
Proof.
  pose proof (to_N_lt_256 b0) as H0. pose proof (to_N_lt_256 b1) as H1.
  split; apply to_N_inj; rewrite to_N_byte_of_N.
  - rewrite N.shiftr_div_pow2. change (2 ^ 8)%N with 256%N. unfold be16.
    rewrite N.div_add_l, (N.div_small (Byte.to_N b1)), N.add_0_r by lia.
    apply N.mod_small. lia.
  - unfold be16. rewrite N.add_comm, N.Div0.mod_add. apply N.mod_small. lia.
Qed.

Lemma be16_rebuild (b0 b1 : byte) :
  (N.shiftr (Byte.to_N b0) 1 * 512 + be16 b0 b1 mod 512 = be16 b0 b1)%N.
Proof.
  rewrite <- (be16_shiftr_9 b0 b1), shiftr_9.
  rewrite (N.div_mod (be16 b0 b1) 512) at 3 by lia. lia.
Qed.

(** A decoded unit is valid, and the input starts with its wire form. *)
Lemma TLV_UnmarshalBinary_Ok_wire (b : bytes) (t0 t : TLV) :
  TLV_UnmarshalBinary b t0 = (t, Ok tt) ->
  b = TLV_wire t ++ skipn (2 + N.to_nat (TLV_Length t)) b.
Proof.
  destruct b as [|b0 [|b1 rest]];
    try (rewrite TLV_UnmarshalBinary_short by (cbn; lia); discriminate).
  rewrite TLV_UnmarshalBinary_header. cbv zeta.
  destruct (shifted_type_bound b0) as [Hty _].
  assert (Hw : (Byte.to_N (byte_of_N (N.shiftr (Byte.to_N b0) 1)) * 512
                + be16 b0 b1 mod 512 = be16 b0 b1)%N)
    by (rewrite Hty; apply be16_rebuild).
  set (ty := byte_of_N (N.shiftr (Byte.to_N b0) 1)) in *.
  set (len := (be16 b0 b1 mod 512)%N) in *. clearbody ty len.
  destruct (Nat.ltb_spec (length rest) (N.to_nat len)); [discriminate|].
  intros [= <-].
  unfold TLV_wire. cbn [TLV_Type TLV_Length TLV_Value].
  rewrite Hw.
  destruct (be16_split b0 b1) as [-> ->].
  cbn [Nat.add skipn app]. now rewrite firstn_skipn.
Qed.

(** X1 (TLV decode, then encode).  Whenever [TLV.UnmarshalBinary]
    succeeds, [TLV.MarshalBinary] accepts the decoded TLV and gives back
    exactly the bytes the decoder consumed: the first [2 + Length] bytes
    of the input. *)
Theorem X1_TLV_decode_then_encode (b : bytes) (t0 t : TLV) :
  TLV_UnmarshalBinary b t0 = (t, Ok tt) ->
  TLV_MarshalBinary t = Ok (firstn (2 + N.to_nat (TLV_Length t)) b).
Proof.
  intros Hdec.
  destruct (TLV_UnmarshalBinary_Ok b t0 t Hdec) as [Hv Hlen].
  rewrite (TLV_MarshalBinary_valid t Hv). f_equal.
  rewrite (TLV_UnmarshalBinary_Ok_wire b t0 t Hdec) at 1.
  destruct Hv as (_ & _ & Hval).
  rewrite firstn_app.
  replace (2 + N.to_nat (TLV_Length t)) with (length (TLV_wire t))
    by (rewrite TLV_wire_length; lia).
  rewrite firstn_all, Nat.sub_diag. cbn [firstn]. now rewrite app_nil_r.
Qed.

Lemma X1_TLV_decode_then_encode_witness :
  TLV_MarshalBinary (mkTLV x04 2 [x61; x62])
  = Ok (firstn (2 + N.to_nat (TLV_Length (mkTLV x04 2 [x61; x62])))
               [x08; x02; x61; x62; xff; xff]).
Proof.
  apply (X1_TLV_decode_then_encode [x08; x02; x61; x62; xff; xff] new_TLV).
  vm_compute. reflexivity.
Defined.

(** X2 (TLV decode stops at its own length).  The bytes of a successful
    [TLV.MarshalBinary], followed by any bytes at all, decode to the
    encoded TLV: what follows a unit never changes how it is read. *)
Theorem X2_TLV_decode_ignores_trailing (t t0 : TLV) (bs rest : bytes) :
  TLV_MarshalBinary t = Ok bs ->
  TLV_UnmarshalBinary (bs ++ rest) t0 = (t, Ok tt).
Proof.
  intros Henc.
  destruct (TLV_valid_dec t) as [Hv|Hv].
  - rewrite (TLV_MarshalBinary_valid t Hv) in Henc. injection Henc as <-.
    now apply TLV_UnmarshalBinary_wire.
  - rewrite (TLV_MarshalBinary_invalid t Hv) in Henc. discriminate.
Qed.

Lemma X2_TLV_decode_ignores_trailing_witness :
  TLV_UnmarshalBinary ([x0a; x01; x7a] ++ [x00; x00; x09]) new_TLV
  = (mkTLV x05 1 [x7a], Ok tt).
Proof.
  apply (X2_TLV_decode_ignores_trailing (mkTLV x05 1 [x7a]) new_TLV).
  vm_compute. reflexivity.
Defined.

(** X3 (TLV encoding is uniquely readable).  If two encoded TLVs, each
    followed by further bytes, give the same byte sequence, then they are
    the same TLV and the bytes that follow are the same: an encoding is
    never a proper prefix of another one. *)
Theorem X3_TLV_encoding_prefix_free (t1 t2 : TLV) (bs1 bs2 r1 r2 : bytes) :
  TLV_MarshalBinary t1 = Ok bs1 ->
  TLV_MarshalBinary t2 = Ok bs2 ->
  bs1 ++ r1 = bs2 ++ r2 ->
  t1 = t2 /\ bs1 = bs2 /\ r1 = r2.
Proof.
  intros H1 H2 Heq.
  assert (Ht : t1 = t2).
  { destruct (TLV_valid_dec t1) as [Hv1|Hv1];
      [|rewrite (TLV_MarshalBinary_invalid t1 Hv1) in H1; discriminate].
    destruct (TLV_valid_dec t2) as [Hv2|Hv2];
      [|rewrite (TLV_MarshalBinary_invalid t2 Hv2) in H2; discriminate].
    rewrite (TLV_MarshalBinary_valid t1 Hv1) in H1. injection H1 as <-.
    rewrite (TLV_MarshalBinary_valid t2 Hv2) in H2. injection H2 as <-.
    pose proof (TLV_UnmarshalBinary_wire t1 r1 new_TLV Hv1) as D1.
    pose proof (TLV_UnmarshalBinary_wire t2 r2 new_TLV Hv2) as D2.
    rewrite Heq in D1. congruence. }
  subst t2. rewrite H1 in H2. injection H2 as <-.
  repeat split. now apply app_inv_head in Heq.
Qed.

Lemma X3_TLV_encoding_prefix_free_witness :
  mkTLV x01 1 [x07] = mkTLV x01 1 [x07] /\
  [x02; x01; x07] = [x02; x01; x07] /\
  [x09] = [x09].
Proof.
  apply (X3_TLV_encoding_prefix_free
           (mkTLV x01 1 [x07]) (mkTLV x01 1 [x07])
           [x02; x01; x07] [x02; x01; x07] [x09] [x09]).
  - vm_compute. reflexivity.
  - vm_compute. reflexivity.
  - reflexivity.
Defined.

(** X4 (what a failed TLV decode leaves behind).  [TLV.UnmarshalBinary]
    never touches [Value] when it fails.  With fewer than two bytes the
    receiver is unchanged altogether; with a header but too few value
    bytes, [Type] and [Length] have already been overwritten from the
    header when [io.ErrUnexpectedEOF] is returned. *)
Theorem X4_TLV_decode_failure_state (b : bytes) (t0 : TLV) (e : error) :
  snd (TLV_UnmarshalBinary b t0) = Err e ->
  e = ErrUnexpectedEOF /\
  TLV_Value (fst (TLV_UnmarshalBinary b t0)) = TLV_Value t0 /\
  (length b < 2 -> fst (TLV_UnmarshalBinary b t0) = t0) /\
  (2 <= length b ->
   Byte.to_N (TLV_Type (fst (TLV_UnmarshalBinary b t0)))
   = spec_kind (header_word b) /\
   TLV_Length (fst (TLV_UnmarshalBinary b t0))
   = spec_length (header_word b)).
Proof.
  destruct b as [|b0 [|b1 rest]].
  - rewrite TLV_UnmarshalBinary_short by (cbn; lia). cbn [fst snd length].
    intros [= <-]. repeat split; trivial; lia.
  - rewrite TLV_UnmarshalBinary_short by (cbn; lia). cbn [fst snd length].
    intros [= <-]. repeat split; trivial; lia.
  - rewrite TLV_UnmarshalBinary_header. cbv zeta.
    destruct (shifted_type_bound b0) as [Hty _].
    destruct (length rest <? N.to_nat (be16 b0 b1 mod 512))%nat;
      cbn [fst snd TLV_Type TLV_Length TLV_Value]; [|discriminate].
    intros [= <-]. unfold header_word, spec_kind, spec_length.
    cbn [nth length].
    change 0x01FF%N with TLVLengthMax.
    rewrite land_TLVLengthMax, be16_shiftr_9, Hty.
    repeat split; trivial; lia.
Qed.

Lemma X4_TLV_decode_failure_state_witness :
  ErrUnexpectedEOF = ErrUnexpectedEOF /\
  TLV_Value (fst (TLV_UnmarshalBinary [x02; xff] (mkTLV x09 7 [x01])))
  = TLV_Value (mkTLV x09 7 [x01]) /\
  (length [x02; xff] < 2 ->
   fst (TLV_UnmarshalBinary [x02; xff] (mkTLV x09 7 [x01]))
   = mkTLV x09 7 [x01]) /\
  (2 <= length [x02; xff] ->
   Byte.to_N (TLV_Type (fst (TLV_UnmarshalBinary [x02; xff]
                               (mkTLV x09 7 [x01]))))
   = spec_kind (header_word [x02; xff]) /\
   TLV_Length (fst (TLV_UnmarshalBinary [x02; xff] (mkTLV x09 7 [x01])))
   = spec_length (header_word [x02; xff])).
Proof.
  apply (X4_TLV_decode_failure_state [x02; xff] (mkTLV x09 7 [x01])
           ErrUnexpectedEOF).
  vm_compute. reflexivity.
Defined.

(** ** Identifiers: extra properties *)

(** X5 (ChassisID round-trip).  [ChassisID.MarshalBinary] never fails: it
    returns [1 + len(ID)] bytes, and [ChassisID.UnmarshalBinary] on those
    bytes rebuilds the same ChassisID over any receiver. *)
Theorem X5_ChassisID_roundtrip (c c0 : ChassisID) :
  exists bs : bytes,
    ChassisID_MarshalBinary c = Ok bs /\
    length bs = 1 + length (ChassisID_ID c) /\
    ChassisID_UnmarshalBinary bs c0 = (c, Ok tt).
Proof.
  exists (ChassisID_Subtype c :: ChassisID_ID c). repeat split.
  - apply ChassisID_MarshalBinary_wire.
  - rewrite ChassisID_UnmarshalBinary_cons. now destruct c.
Qed.

(** X6 (ChassisID decode).  [ChassisID.UnmarshalBinary] fails, with
    [io.ErrUnexpectedEOF] and the receiver unchanged, exactly on the empty
    input.  On any other input it succeeds, whatever the subtype byte is,
    and [ChassisID.MarshalBinary] of the result gives the input back. *)
Theorem X6_ChassisID_decode (b : bytes) (c0 : ChassisID) :
  (b = [] /\
   ChassisID_UnmarshalBinary b c0 = (c0, Err ErrUnexpectedEOF))
  \/
  (b <> [] /\
   exists c : ChassisID,
     ChassisID_UnmarshalBinary b c0 = (c, Ok tt) /\
     Some (ChassisID_Subtype c) = nth_error b 0 /\
     ChassisID_ID c = skipn 1 b /\
     ChassisID_MarshalBinary c = Ok b).
Proof.
  destruct b as [|s id].
  - left. split; [reflexivity|apply ChassisID_UnmarshalBinary_nil].
  - right. split; [discriminate|].
    exists (mkChassisID s id). repeat split.
    + apply ChassisID_UnmarshalBinary_cons.
    + apply ChassisID_MarshalBinary_wire.
Qed.

(** X7 (PortID round-trip).  [PortID.MarshalBinary] never fails: it
    returns [1 + len(ID)] bytes, and [PortID.UnmarshalBinary] on those
    bytes rebuilds the same PortID over any receiver. *)
Theorem X7_PortID_roundtrip (p p0 : PortID) :
  exists bs : bytes,
    PortID_MarshalBinary p = Ok bs /\
    length bs = 1 + length (PortID_ID p) /\
    PortID_UnmarshalBinary bs p0 = (p, Ok tt).
Proof.
  exists (PortID_Subtype p :: PortID_ID p). repeat split.
  - apply PortID_MarshalBinary_wire.
  - rewrite PortID_UnmarshalBinary_cons. now destruct p.
Qed.

(** X8 (PortID decode).  [PortID.UnmarshalBinary] fails, with
    [io.ErrUnexpectedEOF] and the receiver unchanged, exactly on the empty
    input.  On any other input it succeeds, whatever the subtype byte is,
    and [PortID.MarshalBinary] of the result gives the input back. *)
Theorem X8_PortID_decode (b : bytes) (p0 : PortID) :
  (b = [] /\
   PortID_UnmarshalBinary b p0 = (p0, Err ErrUnexpectedEOF))
  \/
  (b <> [] /\
   exists p : PortID,
     PortID_UnmarshalBinary b p0 = (p, Ok tt) /\
     Some (PortID_Subtype p) = nth_error b 0 /\
     PortID_ID p = skipn 1 b /\
     PortID_MarshalBinary p = Ok b).
Proof.
  destruct b as [|s id].
  - left. split; [reflexivity|apply PortID_UnmarshalBinary_nil].
  - right. split; [discriminate|].
    exists (mkPortID s id). repeat split.
    + apply PortID_UnmarshalBinary_cons.
    + apply PortID_MarshalBinary_wire.
Qed.

(** ** Frames: the TLV loop read backwards *)

Lemma slice_from_inv {A : Type} (l r : list A) (lo : nat) :
  slice_from l lo = Ok r -> lo <= length l /\ r = skipn lo l.
Proof.
  unfold slice_from, slice.
  destruct (Nat.leb_spec lo (length l)); cbn [andb]; [|discriminate].
  rewrite Nat.leb_refl. intros [= <-]. split; [assumption|].
  apply firstn_all2. rewrite length_skipn. lia.
Qed.

Lemma TLV_UnmarshalBinary_outcomes (b : bytes) (t0 : TLV) :
  snd (TLV_UnmarshalBinary b t0) = Ok tt \/
  snd (TLV_UnmarshalBinary b t0) = Err ErrUnexpectedEOF.
Proof.
  destruct b as [|b0 [|b1 rest]];
    try (rewrite TLV_UnmarshalBinary_short by (cbn; lia); now right).
  rewrite TLV_UnmarshalBinary_header. cbv zeta.
  destruct (length rest <? N.to_nat (be16 b0 b1 mod 512))%nat; auto.
Qed.

(** The units read are exactly what the remaining input spells. *)
Lemma read_TLVs_inv (fuel : nat) :
  forall (b : bytes) (l : nat) (acc tts : list TLV),
    read_TLVs fuel b l acc = Some (Ok tts) ->
    exists ts, tts = acc ++ ts /\ skipn l b = TLVs_wire ts.
Proof.
  induction fuel as [|fuel IH]; intros b l acc tts; cbn [read_TLVs];
    destruct (slice_from b l) as [rest| |] eqn:Hs; try discriminate;
    apply slice_from_inv in Hs; destruct Hs as [Hl ->];
    destruct (Nat.ltb_spec 0 (length (skipn l b))) as [Hpos|Hz];
    try discriminate.
  - intros [= <-]. exists []. rewrite app_nil_r. split; [reflexivity|].
    apply length_zero_iff_nil. lia.
  - destruct (TLV_UnmarshalBinary (skipn l b) new_TLV) as [t [[]| |]] eqn:E;
      try discriminate.
    intros Hrec. destruct (IH _ _ _ _ Hrec) as (ts & -> & Hw).
    exists (t :: ts). split; [now rewrite <- app_assoc|].
    rewrite TLVs_wire_cons, <- Hw.
    rewrite (TLV_UnmarshalBinary_Ok_wire _ _ _ E) at 1.
    f_equal. rewrite skipn_skipn. f_equal. lia.
  - intros [= <-]. exists []. rewrite app_nil_r. split; [reflexivity|].
    apply length_zero_iff_nil. lia.
Qed.

Lemma Frame_TLVs_inv (b : bytes) (tts : list TLV) :
  Frame_TLVs b = Ok tts -> b = TLVs_wire tts.
Proof.
  intros H. pose proof (Frame_TLVs_fuel b) as Hf. rewrite H in Hf.
  destruct (read_TLVs_inv _ _ _ _ _ Hf) as (ts & -> & Hw).
  exact Hw.
Qed.

(** The loop returns units or [io.ErrUnexpectedEOF]; it never panics. *)
Lemma read_TLVs_outcomes (fuel : nat) :
  forall (b : bytes) (l : nat) (acc : list TLV) (r : result (list TLV)),
    l <= length b ->
    read_TLVs fuel b l acc = Some r ->
    r <> Panic /\ forall e, r = Err e -> e = ErrUnexpectedEOF.
Proof.
  induction fuel as [|fuel IH]; intros b l acc r Hl; cbn [read_TLVs];
    rewrite (slice_from_ok b l Hl);
    destruct (Nat.ltb_spec 0 (length (skipn l b))) as [Hpos|Hz];
    try discriminate;
    try (intros [= <-]; split; [discriminate|intros e; discriminate]).
  destruct (TLV_UnmarshalBinary_outcomes (skipn l b) new_TLV) as [Ho|Ho];
    destruct (TLV_UnmarshalBinary (skipn l b) new_TLV) as [t [[]| |]] eqn:E;
    cbn [snd] in Ho; try discriminate.
  - apply IH.
    destruct (TLV_UnmarshalBinary_Ok _ _ _ E) as [_ Hlen].
    rewrite length_skipn in Hlen. lia.
  - intros [= <-]. split; [discriminate|]. intros e' [= <-]. congruence.
Qed.

Lemma Frame_TLVs_outcomes (b : bytes) :
  Frame_TLVs b <> Panic /\
  forall e, Frame_TLVs b = Err e -> e = ErrUnexpectedEOF.
Proof.
  apply (read_TLVs_outcomes (length b) b 0 []); [lia|].
  apply Frame_TLVs_fuel.
Qed.

(** ** Frames: every outcome of the encoder *)

(** [Frame.MarshalBinary] once the three checks have passed. *)
Lemma Frame_MarshalBinary_outcome (f : Frame) (c : ChassisID) (p : PortID) :
  Frame_ChassisID f = Some c ->
  Frame_PortID f = Some p ->
  (Z.quot (Frame_TTL f) Second <= MaxUint16)%Z ->
  match Frame_MarshalBinary f with
  | Ok bs =>
      exists ts : list TLV,
        Frame_Optional f = map Some ts /\
        TLV_valid (chassis_TLV c) /\ TLV_valid (port_TLV p) /\
        Forall TLV_valid ts /\
        bs = Frame_wire c p (uint16_of_Z (Z.quot (Frame_TTL f) Second)) ts
  | Err e =>
      e = ErrInvalidTLV /\
      exists ts : list TLV,
        Frame_Optional f = map Some ts /\
        ~ (TLV_valid (chassis_TLV c) /\ TLV_valid (port_TLV p) /\
           Forall TLV_valid ts)
  | Panic => In None (Frame_Optional f)
  end.
Proof.
  intros Hc Hp Httl. unfold Frame_MarshalBinary, Frame_length.
  rewrite Hc, Hp. cbn [is_nil deref rbind].
  destruct (Z.ltb_spec MaxUint16 (Z.quot (Frame_TTL f) Second)); [lia|].
  pose proof (length_loop (Frame_Optional f)
                (0 + (2 + 1 + length (ChassisID_ID c))
                 + (2 + 1 + length (PortID_ID p)) + (2 + 2))) as Hl.
  destruct (for_range (Frame_Optional f) _ _) as [m| |]; cbn [rbind];
    [|contradiction|exact Hl].
  destruct Hl as (ts & Hts & Hm).
  rewrite ChassisID_MarshalBinary_wire. cbn [rbind].
  change (mkTLV TLVTypeChassisID _ _) with (chassis_TLV c).
  destruct (TLV_valid_dec (chassis_TLV c)) as [Hvc|Hvc];
    [|rewrite (TLV_MarshalBinary_invalid _ Hvc); cbn [rbind];
      split; [reflexivity|exists ts; tauto]].
  rewrite (TLV_MarshalBinary_valid _ Hvc). cbn [rbind].
  set (w1 := TLV_wire (chassis_TLV c)).
  assert (Hw1 : length w1 = 2 + 1 + length (ChassisID_ID c)) by reflexivity.
  rewrite copy_step0 by (rewrite make_length; lia).
  cbn [rbind]. rewrite skipn_make.
  rewrite PortID_MarshalBinary_wire. cbn [rbind].
  change (mkTLV TLVTypePortID _ _) with (port_TLV p).
  destruct (TLV_valid_dec (port_TLV p)) as [Hvp|Hvp];
    [|rewrite (TLV_MarshalBinary_invalid _ Hvp); cbn [rbind];
      split; [reflexivity|exists ts; tauto]].
  rewrite (TLV_MarshalBinary_valid _ Hvp). cbn [rbind].
  set (w2 := TLV_wire (port_TLV p)).
  assert (Hw2 : length w2 = 2 + 1 + length (PortID_ID p)) by reflexivity.
  rewrite copy_step
    by (rewrite ?make_length, ?length_app; cbn [length]; lia).
  cbn [rbind]. rewrite skipn_make.
  change (BigEndian_PutUint16 (make 2) ?v)
    with (Ok [byte_of_N (N.shiftr v 8); byte_of_N v]).
  cbn [rbind].
  change (mkTLV TLVTypeTTL _ _)
    with (ttl_TLV (uint16_of_Z (Z.quot (Frame_TTL f) Second))).
  rewrite (TLV_MarshalBinary_valid _ (ttl_TLV_valid _)). cbn [rbind].
  set (w3 := TLV_wire (ttl_TLV _)).
  assert (Hw3 : length w3 = 2 + 2) by reflexivity.
  rewrite copy_step
    by (rewrite ?make_length, ?length_app; cbn [length]; lia).
  cbn [rbind]. rewrite skipn_make, Hts.
  pose proof (marshal_loop ts ((w1 ++ w2) ++ w3)
                (make (m + 2 - length w1 - length w2 - length w3))
                (0 + length w1 + length w2 + length w3)) as Hloop.
  rewrite !length_app, make_length in Hloop.
  specialize (Hloop ltac:(lia) ltac:(lia)).
  destruct (for_range (map Some ts) _ _) as [bn|e|]; cbn [rbind].
  - destruct Hloop as [Hall Hb]. exists ts.
    split; [reflexivity|]. split; [assumption|]. split; [assumption|].
    split; [assumption|].
    rewrite Hb, skipn_make. unfold Frame_wire. fold w1 w2 w3.
    replace (m + 2 - length w1 - length w2 - length w3
             - length (TLVs_wire ts)) with 2 by lia.
    now rewrite <- !app_assoc.
  - destruct Hloop as [-> Hbad]. split; [reflexivity|].
    exists ts. split; [reflexivity|]. tauto.
  - contradiction.
Qed.

Lemma identifier_TLV_valid (ty : TLVType) (v : bytes) :
  (Byte.to_N ty <= 127)%N ->
  TLV_valid (mkTLV ty (uint16 (N.of_nat (length v))) v) <->
  length v <= 511.
Proof.
  intros Hty. unfold TLV_valid, uint16.
  cbn [TLV_Type TLV_Length TLV_Value]. split.
  - intros (_ & Hlen & Hval).
    set (x := (N.of_nat (length v) mod 65536)%N) in *. lia.
  - intros H. rewrite N.mod_small by lia. lia.
Qed.

Lemma chassis_TLV_valid_iff (c : ChassisID) :
  TLV_valid (chassis_TLV c) <-> length (ChassisID_ID c) <= 510.
Proof.
  unfold chassis_TLV. cbv zeta.
  rewrite identifier_TLV_valid by (vm_compute; discriminate).
  cbn [length]. lia.
Qed.

Lemma port_TLV_valid_iff (p : PortID) :
  TLV_valid (port_TLV p) <-> length (PortID_ID p) <= 510.
Proof.
  unfold port_TLV. cbv zeta.
  rewrite identifier_TLV_valid by (vm_compute; discriminate).
  cbn [length]. lia.
Qed.

Lemma map_Some_no_nil (ts : list TLV) : ~ In None (map Some ts).
Proof. rewrite in_map_iff. intros (t & E & _). discriminate. Qed.

Lemma map_Some_inj (xs ys : list TLV) : map Some xs = map Some ys -> xs = ys.
Proof.
  revert ys. induction xs as [|x xs IH]; intros [|y ys]; cbn;
    try discriminate; [reflexivity|].
  intros [= -> E]. f_equal. now apply IH.
Qed.

(** Past its three checks the encoder reads nothing of the TTL but its
    whole seconds. *)
Lemma Frame_MarshalBinary_checks (f : Frame) :
  Frame_MarshalBinary f <> Err ErrInvalidFrame ->
  exists c p,
    Frame_ChassisID f = Some c /\ Frame_PortID f = Some p /\
    (Z.quot (Frame_TTL f) Second <= MaxUint16)%Z.
Proof.
  unfold Frame_MarshalBinary.
  destruct (Frame_ChassisID f) as [c|]; cbn [is_nil]; [|congruence].
  destruct (Frame_PortID f) as [p|]; cbn [is_nil]; [|congruence].
  destruct (Z.ltb_spec MaxUint16 (Z.quot (Frame_TTL f) Second));
    [congruence|].
  intros _. now exists c, p.
Qed.

(** X9 (when the encoder succeeds, and with what).  [Frame.MarshalBinary]
    returns bytes exactly when both identifiers are present with IDs of at
    most 510 bytes, the TTL in whole seconds is at most 65535, no optional
    entry is nil and every optional TLV satisfies the TLV invariant.  The
    bytes are then the chassis ID, port ID and TTL TLVs, the optional TLVs
    in their order, and the two zero bytes of the End Of LLDPDU TLV. *)
Theorem X9_Frame_MarshalBinary_success (f : Frame) (bs : bytes) :
  Frame_MarshalBinary f = Ok bs <->
  exists (c : ChassisID) (p : PortID) (ts : list TLV),
    Frame_ChassisID f = Some c /\
    Frame_PortID f = Some p /\
    (Z.quot (Frame_TTL f) Second <= 65535)%Z /\
    Frame_Optional f = map Some ts /\
    length (ChassisID_ID c) <= 510 /\
    length (PortID_ID p) <= 510 /\
    Forall TLV_valid ts /\
    bs = TLV_wire (chassis_TLV c) ++ TLV_wire (port_TLV p) ++
         TLV_wire (ttl_TLV (uint16_of_Z (Z.quot (Frame_TTL f) Second))) ++
         TLVs_wire ts ++ [x00; x00].
Proof.
  split.
  - intros Hm.
    destruct (Frame_MarshalBinary_checks f) as (c & p & Hc & Hp & Httl);
      [rewrite Hm; discriminate|].
    unfold MaxUint16 in Httl.
    pose proof (Frame_MarshalBinary_outcome f c p Hc Hp Httl) as H.
    rewrite Hm in H. destruct H as (ts & Hts & Hvc & Hvp & Hall & ->).
    exists c, p, ts. rewrite <- chassis_TLV_valid_iff, <- port_TLV_valid_iff.
    repeat (split; [assumption|]). reflexivity.
  - intros (c & p & ts & Hc & Hp & Httl & Hts & Hlc & Hlp & Hall & ->).
    rewrite <- chassis_TLV_valid_iff in Hlc.
    rewrite <- port_TLV_valid_iff in Hlp.
    pose proof (Frame_MarshalBinary_outcome f c p Hc Hp Httl) as H.
    destruct (Frame_MarshalBinary f) as [bs'|e|].
    + destruct H as (ts' & Hts' & _ & _ & _ & ->).
      rewrite Hts in Hts'. apply map_Some_inj in Hts'. now subst ts'.
    + destruct H as (_ & ts' & Hts' & Hbad).
      rewrite Hts in Hts'. apply map_Some_inj in Hts'. subst ts'. tauto.
    + rewrite Hts in H. now apply map_Some_no_nil in H.
Qed.

Lemma X9_Frame_MarshalBinary_success_witness :
  Frame_MarshalBinary test_frame = Ok test_frame_bytes <->
  exists (c : ChassisID) (p : PortID) (ts : list TLV),
    Frame_ChassisID test_frame = Some c /\
    Frame_PortID test_frame = Some p /\
    (Z.quot (Frame_TTL test_frame) Second <= 65535)%Z /\
    Frame_Optional test_frame = map Some ts /\
    length (ChassisID_ID c) <= 510 /\
    length (PortID_ID p) <= 510 /\
    Forall TLV_valid ts /\
    test_frame_bytes
    = TLV_wire (chassis_TLV c) ++ TLV_wire (port_TLV p) ++
      TLV_wire (ttl_TLV (uint16_of_Z
                           (Z.quot (Frame_TTL test_frame) Second))) ++
      TLVs_wire ts ++ [x00; x00].
Proof. exact (X9_Frame_MarshalBinary_success test_frame test_frame_bytes). Defined.

(** X10 (ErrInvalidFrame from the encoder).  [Frame.MarshalBinary]
    returns [ErrInvalidFrame] exactly when [ChassisID] is nil, [PortID] is
    nil, or the TTL in whole seconds exceeds 65535; no later step of the
    encoder produces this error. *)
Theorem X10_Frame_MarshalBinary_ErrInvalidFrame (f : Frame) :
  Frame_MarshalBinary f = Err ErrInvalidFrame <->
  Frame_ChassisID f = None \/
  Frame_PortID f = None \/
  (65535 < Z.quot (Frame_TTL f) Second)%Z.
Proof.
  split.
  - intros Hm.
    destruct (Frame_ChassisID f) as [c|] eqn:Hc; [|now left].
    destruct (Frame_PortID f) as [p|] eqn:Hp; [|now right; left].
    destruct (Z.le_gt_cases (Z.quot (Frame_TTL f) Second) 65535)
      as [Httl|Httl]; [|right; right; lia].
    pose proof (Frame_MarshalBinary_outcome f c p Hc Hp Httl) as H.
    rewrite Hm in H. destruct H as [H _]. discriminate.
  - intros H. unfold Frame_MarshalBinary.
    destruct (Frame_ChassisID f) as [c|]; [|reflexivity].
    destruct (Frame_PortID f) as [p|]; [|reflexivity].
    cbn [is_nil]. destruct H as [H|[H|H]]; try discriminate.
    unfold MaxUint16.
    destruct (Z.ltb_spec 65535 (Z.quot (Frame_TTL f) Second));
      [reflexivity|lia].
Qed.

(** X11 (ErrInvalidTLV from the encoder).  [Frame.MarshalBinary] returns
    [ErrInvalidTLV] exactly when its three checks pass, no optional entry
    is nil, and some TLV cannot be encoded: the chassis ID or the port ID
    is longer than 510 bytes (however long: a length that wraps around in
    [uint16] is caught as a length mismatch), or an optional TLV violates
    the TLV invariant. *)
Theorem X11_Frame_MarshalBinary_ErrInvalidTLV (f : Frame) :
  Frame_MarshalBinary f = Err ErrInvalidTLV <->
  exists (c : ChassisID) (p : PortID) (ts : list TLV),
    Frame_ChassisID f = Some c /\
    Frame_PortID f = Some p /\
    (Z.quot (Frame_TTL f) Second <= 65535)%Z /\
    Frame_Optional f = map Some ts /\
    (510 < length (ChassisID_ID c) \/
     510 < length (PortID_ID p) \/
     ~ Forall TLV_valid ts).
Proof.
  split.
  - intros Hm.
    destruct (Frame_MarshalBinary_checks f) as (c & p & Hc & Hp & Httl);
      [rewrite Hm; discriminate|].
    unfold MaxUint16 in Httl.
    pose proof (Frame_MarshalBinary_outcome f c p Hc Hp Httl) as H.
    rewrite Hm in H. destruct H as (_ & ts & Hts & Hbad).
    exists c, p, ts. repeat split; try assumption.
    rewrite chassis_TLV_valid_iff, port_TLV_valid_iff in Hbad.
    destruct (Nat.le_gt_cases (length (ChassisID_ID c)) 510); [|now left].
    destruct (Nat.le_gt_cases (length (PortID_ID p)) 510);
      [|now right; left].
    right. right. tauto.
  - intros (c & p & ts & Hc & Hp & Httl & Hts & Hbad).
    pose proof (Frame_MarshalBinary_outcome f c p Hc Hp Httl) as H.
    destruct (Frame_MarshalBinary f) as [bs|e|].
    + destruct H as (ts' & Hts' & Hvc & Hvp & Hall & _).
      rewrite Hts in Hts'. apply map_Some_inj in Hts'. subst ts'.
      rewrite chassis_TLV_valid_iff in Hvc.
      rewrite port_TLV_valid_iff in Hvp.
      destruct Hbad as [Hb|[Hb|Hb]]; [lia|lia|tauto].
    + destruct H as [-> _]. reflexivity.
    + rewrite Hts in H. now apply map_Some_no_nil in H.
Qed.

(** X12 (when the encoder panics).  [Frame.MarshalBinary] panics exactly
    when its three checks pass and [Optional] holds a nil entry:
    [Frame.length] dereferences every entry before any TLV is encoded. *)
Theorem X12_Frame_MarshalBinary_panic (f : Frame) :
  Frame_MarshalBinary f = Panic <->
  Frame_ChassisID f <> None /\
  Frame_PortID f <> None /\
  (Z.quot (Frame_TTL f) Second <= 65535)%Z /\
  In None (Frame_Optional f).
Proof.
  split.
  - intros Hm.
    destruct (Frame_MarshalBinary_checks f) as (c & p & Hc & Hp & Httl);
      [rewrite Hm; discriminate|].
    unfold MaxUint16 in Httl.
    pose proof (Frame_MarshalBinary_outcome f c p Hc Hp Httl) as H.
    rewrite Hm in H. rewrite Hc, Hp. repeat split; try discriminate; assumption.
  - intros (Hc & Hp & Httl & Hnil).
    destruct (Frame_ChassisID f) as [c|] eqn:Ec; [|congruence].
    destruct (Frame_PortID f) as [p|] eqn:Ep; [|congruence].
    pose proof (Frame_MarshalBinary_outcome f c p Ec Ep Httl) as H.
    destruct (Frame_MarshalBinary f) as [bs|e|]; [| |reflexivity].
    + destruct H as (ts & Hts & _). rewrite Hts in Hnil.
      now apply map_Some_no_nil in Hnil.
    + destruct H as (_ & ts & Hts & _). rewrite Hts in Hnil.
      now apply map_Some_no_nil in Hnil.
Qed.

(** X13 ([Frame.length] sizes the buffer exactly).  Whenever
    [Frame.MarshalBinary] succeeds, [Frame.length] returns the number of
    bytes of the result: every byte of the buffer is accounted for, the
    last two being the End Of LLDPDU TLV that is never written. *)
Theorem X13_Frame_length_exact (f : Frame) (bs : bytes) :
  Frame_MarshalBinary f = Ok bs ->
  Frame_length f = Ok (length bs) /\
  skipn (length bs - 2) bs = [x00; x00].
Proof.
  intros Hm.
  destruct (Frame_MarshalBinary_checks f) as (c & p & Hc & Hp & Httl);
    [rewrite Hm; discriminate|].
  unfold MaxUint16 in Httl.
  pose proof (Frame_MarshalBinary_outcome f c p Hc Hp Httl) as H.
  rewrite Hm in H. destruct H as (ts & Hts & _ & _ & _ & ->).
  unfold Frame_wire.
  set (w1 := TLV_wire (chassis_TLV c)).
  set (w2 := TLV_wire (port_TLV p)).
  set (w3 := TLV_wire (ttl_TLV _)).
  assert (Hw1 : length w1 = 2 + 1 + length (ChassisID_ID c)) by reflexivity.
  assert (Hw2 : length w2 = 2 + 1 + length (PortID_ID p)) by reflexivity.
  assert (Hw3 : length w3 = 2 + 2) by reflexivity.
  split.
  - unfold Frame_length. rewrite Hc, Hp, Hts. cbn [deref rbind].
    pose proof (length_loop (map Some ts)
                  (0 + (2 + 1 + length (ChassisID_ID c))
                   + (2 + 1 + length (PortID_ID p)) + (2 + 2))) as Hl.
    destruct (for_range (map Some ts) _ _) as [m| |]; cbn [rbind].
    + destruct Hl as (ts' & Hts' & ->). apply map_Some_inj in Hts'.
      subst ts'. f_equal. rewrite !length_app. cbn [length]. lia.
    + contradiction.
    + now apply map_Some_no_nil in Hl.
  - rewrite !app_assoc. rewrite skipn_app.
    rewrite length_app. cbn [length].
    replace (length (((w1 ++ w2) ++ w3) ++ TLVs_wire ts) + 2 - 2)
      with (length (((w1 ++ w2) ++ w3) ++ TLVs_wire ts)) by lia.
    now rewrite skipn_all, Nat.sub_diag.
Qed.

Lemma X13_Frame_length_exact_witness :
  Frame_length test_frame = Ok (length test_frame_bytes) /\
  skipn (length test_frame_bytes - 2) test_frame_bytes = [x00; x00].
Proof.
  apply (X13_Frame_length_exact test_frame test_frame_bytes).
  vm_compute. reflexivity.
Defined.

(** ** Frames: every outcome of the decoder *)

Lemma Frame_UnmarshalBinary_loop_error (b : bytes) (f : Frame) (e : error) :
  Frame_TLVs b = Err e -> Frame_UnmarshalBinary b f = (f, Err e).
Proof.
  intros H. unfold Frame_UnmarshalBinary, mbind at 1. now rewrite H.
Qed.

(** A valid unit of a given type whose value is known is determined. *)
Lemma TLV_valid_eq (t : TLV) (ty : TLVType) (v : bytes) :
  TLV_valid t -> TLV_Type t = ty -> TLV_Value t = v ->
  t = mkTLV ty (uint16 (N.of_nat (length v))) v.
Proof.
  intros (_ & Hlen & Hval) <- <-. destruct t as [ty' len v'].
  cbn [TLV_Type TLV_Length TLV_Value] in *. f_equal.
  unfold uint16. rewrite <- Hval, N2Nat.id. symmetry.
  apply N.mod_small. lia.
Qed.

Lemma Forall_valid_units (t0 t1 t2 tn : TLV) (mid : list TLV) :
  Forall TLV_valid (t0 :: t1 :: t2 :: mid ++ [tn]) ->
  TLV_valid t0 /\ TLV_valid t1 /\ TLV_valid t2 /\
  Forall TLV_valid mid /\ TLV_valid tn.
Proof.
  intros H. inversion H as [|? ? H0 H']; subst.
  inversion H' as [|? ? H1 H'']; subst.
  inversion H'' as [|? ? H2 H''']; subst.
  apply Forall_app in H'''. destruct H''' as [Hm Hn].
  inversion Hn; subst. tauto.
Qed.

(** What a successful decode has read, and what it has built. *)
Lemma Frame_UnmarshalBinary_Ok_shape (b : bytes) (f0 f : Frame) :
  Frame_UnmarshalBinary b f0 = (f, Ok tt) ->
  exists (c : ChassisID) (p : PortID) (secs : N) (ts : list TLV),
    f = mkFrame (Some c) (Some p) (Z.of_N secs * Second)%Z (map Some ts) /\
    (secs < 65536)%N /\
    TLV_valid (chassis_TLV c) /\ TLV_valid (port_TLV p) /\
    Forall TLV_valid ts /\
    b = Frame_wire c p secs ts.
Proof.
  intros Hok.
  destruct (Frame_UnmarshalBinary_Ok_units b f0 f Hok)
    as (t0 & t1 & t2 & mid & tn & Htt).
  pose proof (Frame_TLVs_valid b _ Htt) as Hvalid.
  apply Forall_valid_units in Hvalid.
  destruct Hvalid as (Hv0 & Hv1 & Hv2 & Hvm & Hvn).
  rewrite (Frame_UnmarshalBinary_units b f0 t0 t1 t2 tn mid Htt) in Hok.
  destruct (negb (Byte.eqb (TLV_Type t0) TLVTypeChassisID)) eqn:E0;
    [discriminate|]. apply negb_byte_eqb in E0.
  destruct (TLV_Value t0) as [|cs cid] eqn:V0; [discriminate|].
  cbv zeta in Hok.
  destruct (negb (Byte.eqb (TLV_Type t1) TLVTypePortID)) eqn:E1;
    [discriminate|]. apply negb_byte_eqb in E1.
  destruct (TLV_Value t1) as [|ps pid] eqn:V1; [discriminate|].
  destruct (negb (Byte.eqb (TLV_Type t2) TLVTypeTTL)
            || negb (TLV_Length t2 =? 2)%N) eqn:E2; [discriminate|].
  apply check2_false in E2. destruct E2 as [E2 L2].
  destruct (TLV_Value t2) as [|hi [|lo [|]]] eqn:V2;
    try (destruct Hv2 as (_ & _ & Hl2); rewrite L2, V2 in Hl2;
         discriminate).
  rewrite Uint16_word in Hok. fold (be16 hi lo) in Hok.
  destruct (negb (Byte.eqb (TLV_Type tn) TLVTypeEnd)
            || negb (TLV_Length tn =? 0)%N) eqn:En; [discriminate|].
  apply check2_false in En. destruct En as [En Ln].
  pose proof (be16_lt hi lo) as Hlt.
  rewrite int64_small in Hok by (unfold Second; lia).
  injection Hok as <-.
  exists (mkChassisID cs cid), (mkPortID ps pid), (be16 hi lo), mid.
  assert (Q0 : t0 = chassis_TLV (mkChassisID cs cid))
    by (apply TLV_valid_eq; assumption).
  assert (Q1 : t1 = port_TLV (mkPortID ps pid))
    by (apply TLV_valid_eq; assumption).
  assert (Q2 : t2 = ttl_TLV (be16 hi lo)).
  { unfold ttl_TLV. destruct (be16_split hi lo) as [-> ->].
    destruct t2 as [ty2 len2 v2]. cbn [TLV_Type TLV_Length TLV_Value] in *.
    now subst. }
  assert (Qn : tn = end_TLV).
  { destruct Hvn as (_ & _ & Hln). rewrite Ln in Hln.
    destruct tn as [tyn lenn vn]. cbn [TLV_Type TLV_Length TLV_Value] in *.
    subst. destruct vn; [reflexivity|discriminate]. }
  split; [reflexivity|]. split; [exact Hlt|].
  split; [now rewrite <- Q0|]. split; [now rewrite <- Q1|].
  split; [exact Hvm|].
  rewrite Frame_wire_units, <- Q0, <- Q1, <- Q2, <- Qn.
  now apply Frame_TLVs_inv.
Qed.

(** X14 (the decoder's outcomes).  [Frame.UnmarshalBinary] never panics
    and never returns [ErrInvalidTLV]: on every input and every receiver
    it succeeds or returns [io.ErrUnexpectedEOF] or [ErrInvalidFrame]. *)
Theorem X14_Frame_UnmarshalBinary_outcomes (b : bytes) (f : Frame) :
  snd (Frame_UnmarshalBinary b f) = Ok tt \/
  snd (Frame_UnmarshalBinary b f) = Err ErrUnexpectedEOF \/
  snd (Frame_UnmarshalBinary b f) = Err ErrInvalidFrame.
Proof.
  destruct (Frame_TLVs_outcomes b) as [Hnp Herr].
  destruct (Frame_TLVs b) as [tts|e|] eqn:Htt; [| |congruence].
  2:{ rewrite (Frame_UnmarshalBinary_loop_error b f e Htt).
      rewrite (Herr e eq_refl). now right; left. }
  destruct (Nat.lt_ge_cases (length tts) 4) as [Hlt|Hge].
  { rewrite (Frame_UnmarshalBinary_few b f tts Htt Hlt). now right; left. }
  destruct (units_shape tts Hge) as (t0 & t1 & t2 & mid & tn & ->).
  pose proof (Frame_TLVs_valid b _ Htt) as Hvalid.
  apply Forall_valid_units in Hvalid.
  destruct Hvalid as (_ & _ & (_ & _ & Hl2) & _).
  rewrite (Frame_UnmarshalBinary_units b f t0 t1 t2 tn mid Htt).
  destruct (negb (Byte.eqb (TLV_Type t0) TLVTypeChassisID)); [auto|].
  destruct (TLV_Value t0); [auto|]. cbv zeta.
  destruct (negb (Byte.eqb (TLV_Type t1) TLVTypePortID)); [auto|].
  destruct (TLV_Value t1); [auto|].
  destruct (negb (Byte.eqb (TLV_Type t2) TLVTypeTTL)
            || negb (TLV_Length t2 =? 2)%N) eqn:E2; [auto|].
  apply check2_false in E2. destruct E2 as [_ L2].
  destruct (Uint16_two (TLV_Value t2)) as [secs ->];
    [rewrite <- Hl2, L2; reflexivity|].
  destruct (negb (Byte.eqb (TLV_Type tn) TLVTypeEnd)
            || negb (TLV_Length tn =? 0)%N); auto.
Qed.

(** X15 (failures that leave the receiver alone).  When the input does
    not split into TLV units, or splits into fewer than four, in
    particular whenever it is shorter than eight bytes,
    [Frame.UnmarshalBinary] returns [io.ErrUnexpectedEOF] and has assigned
    nothing to the receiver. *)
Theorem X15_Frame_UnmarshalBinary_early_failure (b : bytes) (f : Frame) :
  (forall tts, Frame_TLVs b = Ok tts -> length tts < 4) \/ length b < 8 ->
  Frame_UnmarshalBinary b f = (f, Err ErrUnexpectedEOF).
Proof.
  intros H.
  assert (Hfew : forall tts, Frame_TLVs b = Ok tts -> length tts < 4).
  { destruct H as [H|H]; [exact H|].
    intros tts Htt. apply Frame_TLVs_inv in Htt. subst b.
    pose proof (TLVs_wire_min_length tts). lia. }
  destruct (Frame_TLVs_outcomes b) as [Hnp Herr].
  destruct (Frame_TLVs b) as [tts|e|] eqn:Htt; [| |congruence].
  - apply (Frame_UnmarshalBinary_few b f tts Htt). now apply Hfew.
  - rewrite (Frame_UnmarshalBinary_loop_error b f e Htt).
    now rewrite (Herr e eq_refl).
Qed.

Lemma X15_Frame_UnmarshalBinary_early_failure_witness :
  Frame_UnmarshalBinary [x02; x01; x07; x04; x01; x03; x06] test_frame
  = (test_frame, Err ErrUnexpectedEOF).
Proof.
  apply X15_Frame_UnmarshalBinary_early_failure.
  right. cbn [length]. lia.
Defined.

(** X16 (what a successful decode yields).  When [Frame.UnmarshalBinary]
    succeeds every field of the receiver has been overwritten: [ChassisID]
    and [PortID] are non-nil with IDs of at most 510 bytes, [TTL] is a
    whole number of seconds between 0 and 65535, [Optional] has no nil
    entry and holds only TLVs that satisfy the TLV invariant, and the
    input had at least twelve bytes. *)
Theorem X16_Frame_UnmarshalBinary_success (b : bytes) (f0 f : Frame) :
  Frame_UnmarshalBinary b f0 = (f, Ok tt) ->
  exists (c : ChassisID) (p : PortID) (s : Z) (ts : list TLV),
    f = mkFrame (Some c) (Some p) (s * Second)%Z (map Some ts) /\
    (0 <= s <= 65535)%Z /\
    length (ChassisID_ID c) <= 510 /\
    length (PortID_ID p) <= 510 /\
    Forall TLV_valid ts /\
    12 <= length b.
Proof.
  intros Hok.
  destruct (Frame_UnmarshalBinary_Ok_shape b f0 f Hok)
    as (c & p & secs & ts & -> & Hs & Hvc & Hvp & Hall & ->).
  exists c, p, (Z.of_N secs), ts.
  rewrite <- chassis_TLV_valid_iff, <- port_TLV_valid_iff.
  split; [reflexivity|]. split; [lia|].
  split; [assumption|]. split; [assumption|]. split; [assumption|].
  unfold Frame_wire. rewrite !length_app, !TLV_wire_length.
  cbn [chassis_TLV port_TLV ttl_TLV TLV_Value length]. lia.
Qed.

Lemma X16_Frame_UnmarshalBinary_success_witness :
  exists (c : ChassisID) (p : PortID) (s : Z) (ts : list TLV),
    test_frame = mkFrame (Some c) (Some p) (s * Second)%Z (map Some ts) /\
    (0 <= s <= 65535)%Z /\
    length (ChassisID_ID c) <= 510 /\
    length (PortID_ID p) <= 510 /\
    Forall TLV_valid ts /\
    12 <= length test_frame_bytes.
Proof.
  apply (X16_Frame_UnmarshalBinary_success test_frame_bytes new_Frame).
  vm_compute. reflexivity.
Defined.

(** X17 (Frame decode, then encode).  Whenever [Frame.UnmarshalBinary]
    succeeds, [Frame.MarshalBinary] of the decoded frame succeeds and
    returns the input, byte for byte: the decoder accepts nothing that the
    encoder does not produce. *)
Theorem X17_Frame_decode_then_encode (b : bytes) (f0 f : Frame) :
  Frame_UnmarshalBinary b f0 = (f, Ok tt) ->
  Frame_MarshalBinary f = Ok b.
Proof.
  intros Hok.
  destruct (Frame_UnmarshalBinary_Ok_shape b f0 f Hok)
    as (c & p & secs & ts & -> & Hs & Hvc & Hvp & Hall & ->).
  assert (Hq : Z.quot (Z.of_N secs * Second) Second = Z.of_N secs)
    by (apply Z.quot_mul; discriminate).
  assert (Hu : uint16_of_Z (Z.of_N secs) = secs).
  { unfold uint16_of_Z. rewrite Z.mod_small by lia. apply N2Z.id. }
  pose proof (Frame_MarshalBinary_outcome
                (mkFrame (Some c) (Some p) (Z.of_N secs * Second)%Z
                         (map Some ts)) c p eq_refl eq_refl) as H.
  cbn [Frame_TTL Frame_Optional] in H. rewrite Hq, Hu in H.
  unfold MaxUint16 in H. specialize (H ltac:(lia)).
  destruct (Frame_MarshalBinary _) as [bs|e|].
  - destruct H as (ts' & Hts' & _ & _ & _ & ->).
    apply map_Some_inj in Hts'. now subst ts'.
  - destruct H as (_ & ts' & Hts' & Hbad).
    apply map_Some_inj in Hts'. subst ts'. tauto.
  - now apply map_Some_no_nil in H.
Qed.

Lemma X17_Frame_decode_then_encode_witness :
  Frame_MarshalBinary test_frame = Ok test_frame_bytes.
Proof.
  apply (X17_Frame_decode_then_encode test_frame_bytes new_Frame).
  vm_compute. reflexivity.
Defined.

(** Decoding the wire form of a frame, over any receiver. *)
Lemma Frame_UnmarshalBinary_wire (c : ChassisID) (p : PortID) (secs : N)
    (ts : list TLV) (f0 : Frame) :
  TLV_valid (chassis_TLV c) -> TLV_valid (port_TLV p) ->
  Forall TLV_valid ts -> (secs < 65536)%N ->
  Frame_UnmarshalBinary (Frame_wire c p secs ts) f0
  = (mkFrame (Some c) (Some p) (Z.of_N secs * Second)%Z (map Some ts),
     Ok tt).
Proof.
  intros Hvc Hvp Hall Hlt.
  rewrite Frame_wire_units.
  rewrite (Frame_UnmarshalBinary_units _ f0 (chassis_TLV c) (port_TLV p)
             (ttl_TLV secs) end_TLV ts).
  - cbn [chassis_TLV port_TLV ttl_TLV end_TLV TLV_Type TLV_Length TLV_Value].
    change (negb (Byte.eqb TLVTypeChassisID TLVTypeChassisID)) with false.
    change (negb (Byte.eqb TLVTypePortID TLVTypePortID)) with false.
    change (negb (Byte.eqb TLVTypeTTL TLVTypeTTL) || negb (2 =? 2)%N)
      with false.
    change (negb (Byte.eqb TLVTypeEnd TLVTypeEnd) || negb (0 =? 0)%N)
      with false.
    cbv iota zeta.
    rewrite Uint16_word.
    fold (be16 (byte_of_N (N.shiftr secs 8)) (byte_of_N secs)).
    rewrite be16_bytes by exact Hlt.
    rewrite int64_small by (unfold Second; lia).
    destruct c, p. reflexivity.
  - apply Frame_TLVs_wire.
    repeat (constructor; [assumption || apply ttl_TLV_valid|]).
    apply Forall_app. split; [exact Hall|].
    constructor; [apply end_TLV_valid|constructor].
Qed.

(** What a successful encode was given, and what it has written. *)
Lemma Frame_MarshalBinary_Ok_wire (f : Frame) (bs : bytes) :
  Frame_MarshalBinary f = Ok bs ->
  exists (c : ChassisID) (p : PortID) (ts : list TLV),
    f = mkFrame (Some c) (Some p) (Frame_TTL f) (map Some ts) /\
    TLV_valid (chassis_TLV c) /\ TLV_valid (port_TLV p) /\
    Forall TLV_valid ts /\
    bs = Frame_wire c p (uint16_of_Z (Z.quot (Frame_TTL f) Second)) ts.
Proof.
  intros Hm.
  destruct (Frame_MarshalBinary_checks f) as (c & p & Hc & Hp & Httl);
    [rewrite Hm; discriminate|].
  pose proof (Frame_MarshalBinary_outcome f c p Hc Hp Httl) as H.
  rewrite Hm in H. destruct H as (ts & Hts & Hvc & Hvp & Hall & ->).
  exists c, p, ts. repeat (split; [|assumption || reflexivity]).
  destruct f as [fc fp fttl fopt].
  cbn [Frame_ChassisID Frame_PortID Frame_Optional Frame_TTL] in *.
  now subst.
Qed.

Lemma uint16_of_Z_spec (q : Z) :
  (uint16_of_Z q < 65536)%N /\ Z.of_N (uint16_of_Z q) = (q mod 65536)%Z.
Proof.
  pose proof (Z.mod_pos_bound q 65536 ltac:(lia)) as Hr.
  unfold uint16_of_Z. rewrite Z2N.id by lia. split; lia.
Qed.

(** X18 (Frame encode, then decode, for any TTL).  Whenever
    [Frame.MarshalBinary] succeeds, decoding its bytes succeeds and gives
    the frame back with one change: the TTL is replaced by the whole
    seconds that were written, that is the low sixteen bits of the TTL's
    second count.  Fractions of a second are dropped, a negative count
    comes back as its residue modulo 2^16, and every other field is
    unchanged. *)
Theorem X18_Frame_encode_then_decode (f f0 : Frame) (bs : bytes) :
  Frame_MarshalBinary f = Ok bs ->
  Frame_UnmarshalBinary bs f0
  = (set_Frame_TTL
       (Z.quot (Frame_TTL f) Second mod 65536 * Second)%Z f,
     Ok tt).
Proof.
  intros Hm.
  destruct (Frame_MarshalBinary_Ok_wire f bs Hm)
    as (c & p & ts & Hf & Hvc & Hvp & Hall & ->).
  destruct (uint16_of_Z_spec (Z.quot (Frame_TTL f) Second)) as [Hlt Hv].
  rewrite (Frame_UnmarshalBinary_wire c p _ ts f0 Hvc Hvp Hall Hlt), Hv.
  rewrite Hf at 3. reflexivity.
Qed.

Lemma X18_Frame_encode_then_decode_witness :
  Frame_UnmarshalBinary
    [x02; x02; x04; x0a; x04; x02; x05; x0b; x06; x02; x00; x01; x00; x00]
    new_Frame
  = (set_Frame_TTL
       (Z.quot 1999999999 Second mod 65536 * Second)%Z
       (mkFrame (Some (mkChassisID x04 [x0a])) (Some (mkPortID x05 [x0b]))
                1999999999%Z []),
     Ok tt).
Proof.
  apply (X18_Frame_encode_then_decode
           (mkFrame (Some (mkChassisID x04 [x0a]))
                    (Some (mkPortID x05 [x0b])) 1999999999%Z [])
           new_Frame).
  vm_compute. reflexivity.
Defined.

(** X19 (the decoder's result does not depend on the receiver).  When
    [Frame.UnmarshalBinary] succeeds on an input over one receiver, it
    succeeds on that input over every receiver, with the same resulting
    frame: nothing of a reused Frame survives a successful decode. *)
Theorem X19_Frame_decode_receiver_independent (b : bytes) (f0 f1 f : Frame) :
  Frame_UnmarshalBinary b f0 = (f, Ok tt) ->
  Frame_UnmarshalBinary b f1 = (f, Ok tt).
Proof.
  intros Hok.
  destruct (Frame_UnmarshalBinary_Ok_shape b f0 f Hok)
    as (c & p & secs & ts & -> & Hs & Hvc & Hvp & Hall & ->).
  now apply Frame_UnmarshalBinary_wire.
Qed.

Lemma X19_Frame_decode_receiver_independent_witness :
  Frame_UnmarshalBinary test_frame_bytes
    (mkFrame (Some (mkChassisID x07 [x01])) None 5%Z [None; Some end_TLV])
  = (test_frame, Ok tt).
Proof.
  apply (X19_Frame_decode_receiver_independent test_frame_bytes new_Frame).
  vm_compute. reflexivity.
Defined.

(** X20 (the frame encoding is unambiguous).  Two frames that
    [Frame.MarshalBinary] encodes to the same bytes have the same
    [ChassisID], the same [PortID], the same [Optional] list, and TTLs
    whose whole-second counts agree modulo 2^16. *)
Theorem X20_Frame_encoding_injective (f g : Frame) (bs : bytes) :
  Frame_MarshalBinary f = Ok bs ->
  Frame_MarshalBinary g = Ok bs ->
  Frame_ChassisID f = Frame_ChassisID g /\
  Frame_PortID f = Frame_PortID g /\
  Frame_Optional f = Frame_Optional g /\
  (Z.quot (Frame_TTL f) Second mod 65536
   = Z.quot (Frame_TTL g) Second mod 65536)%Z.
Proof.
  intros Hf Hg.
  destruct (Frame_MarshalBinary_Ok_wire f bs Hf)
    as (c & p & ts & Ef & Hvc & Hvp & Hall & Hbs).
  destruct (Frame_MarshalBinary_Ok_wire g bs Hg)
    as (c' & p' & ts' & Eg & Hvc' & Hvp' & Hall' & Hbs').
  destruct (uint16_of_Z_spec (Z.quot (Frame_TTL f) Second)) as [Hlt Hv].
  destruct (uint16_of_Z_spec (Z.quot (Frame_TTL g) Second)) as [Hlt' Hv'].
  pose proof (Frame_UnmarshalBinary_wire c p _ ts new_Frame
                Hvc Hvp Hall Hlt) as D.
  pose proof (Frame_UnmarshalBinary_wire c' p' _ ts' new_Frame
                Hvc' Hvp' Hall' Hlt') as D'.
  rewrite <- Hbs in D. rewrite <- Hbs' in D'. rewrite D in D'.
  injection D' as Ec Ep Ettl Ets.
  rewrite Hv, Hv' in Ettl.
  apply Z.mul_reg_r in Ettl; [|discriminate].
  refine (conj _ (conj _ (conj _ Ettl)));
    rewrite Ef, Eg; cbn [Frame_ChassisID Frame_PortID Frame_Optional];
    congruence.
Qed.

Lemma X20_Frame_encoding_injective_witness :
  Some (mkChassisID x04 [x0a]) = Some (mkChassisID x04 [x0a]) /\
  Some (mkPortID x05 [x0b]) = Some (mkPortID x05 [x0b]) /\
  @nil (option TLV) = [] /\
  (Z.quot 1999999999 Second mod 65536
   = Z.quot (- 65535 * Second) Second mod 65536)%Z.
Proof.
  apply (X20_Frame_encoding_injective
           (mkFrame (Some (mkChassisID x04 [x0a]))
                    (Some (mkPortID x05 [x0b])) 1999999999%Z [])
           (mkFrame (Some (mkChassisID x04 [x0a]))
                    (Some (mkPortID x05 [x0b])) (- 65535 * Second)%Z [])
           [x02; x02; x04; x0a; x04; x02; x05; x0b; x06; x02; x00; x01;
            x00; x00]).
  - vm_compute. reflexivity.
  - vm_compute. reflexivity.
Defined.

(** ** Negative TTLs *)

(** C9 (negative TTL).  A frame with both identifiers present and a TTL
    whose whole-second count is negative passes the range check:
    [Frame.MarshalBinary] does not return [ErrInvalidFrame].  It encodes
    the frame whenever the rest of the frame can be encoded (no nil
    optional entry, IDs of at most 510 bytes, optional TLVs that satisfy
    the TLV invariant), and in every successful result the TTL TLV holds
    the low sixteen bits of that negative count (its residue modulo
    2^16), big-endian. *)
Theorem C9_negative_TTL_wraps (f : Frame) (c : ChassisID) (p : PortID) :
  Frame_ChassisID f = Some c ->
  Frame_PortID f = Some p ->
  (Z.quot (Frame_TTL f) Second < 0)%Z ->
  Frame_MarshalBinary f <> Err ErrInvalidFrame /\
  (forall ts : list TLV,
     Frame_Optional f = map Some ts ->
     length (ChassisID_ID c) <= 510 ->
     length (PortID_ID p) <= 510 ->
     Forall TLV_valid ts ->
     let v := Z.to_N (Z.quot (Frame_TTL f) Second mod 2 ^ 16) in
     Frame_MarshalBinary f
     = Ok (TLV_wire (chassis_TLV c) ++ TLV_wire (port_TLV p) ++
           [x06; x02; byte_of_N (N.shiftr v 8); byte_of_N v] ++
           TLVs_wire ts ++ [x00; x00])) /\
  (forall bs : bytes,
     Frame_MarshalBinary f = Ok bs ->
     exists ts : list TLV,
       Frame_Optional f = map Some ts /\
       let v := Z.to_N (Z.quot (Frame_TTL f) Second mod 2 ^ 16) in
       bs = TLV_wire (chassis_TLV c) ++ TLV_wire (port_TLV p) ++
            [x06; x02; byte_of_N (N.shiftr v 8); byte_of_N v] ++
            TLVs_wire ts ++ [x00; x00]).
Proof.
  intros Hc Hp Hneg.
  assert (Httl : (Z.quot (Frame_TTL f) Second <= MaxUint16)%Z)
    by (unfold MaxUint16; lia).
  pose proof (Frame_MarshalBinary_outcome f c p Hc Hp Httl) as H.
  change (Z.to_N (Z.quot (Frame_TTL f) Second mod 2 ^ 16))
    with (uint16_of_Z (Z.quot (Frame_TTL f) Second)).
  split; [|split].
  - destruct (Frame_MarshalBinary f) as [bs|e|]; try discriminate.
    destruct H as [-> _]. discriminate.
  - intros ts Hts Hlc Hlp Hall. cbv zeta.
    rewrite <- chassis_TLV_valid_iff in Hlc.
    rewrite <- port_TLV_valid_iff in Hlp.
    rewrite <- ttl_TLV_wire.
    destruct (Frame_MarshalBinary f) as [bs|e|].
    + destruct H as (ts' & Hts' & _ & _ & _ & ->).
      rewrite Hts in Hts'. apply map_Some_inj in Hts'. now subst ts'.
    + destruct H as (_ & ts' & Hts' & Hbad).
      rewrite Hts in Hts'. apply map_Some_inj in Hts'. subst ts'. tauto.
    + rewrite Hts in H. now apply map_Some_no_nil in H.
  - intros bs Hm. rewrite Hm in H.
    destruct H as (ts & Hts & _ & _ & _ & ->).
    exists ts. split; [exact Hts|]. cbv zeta.
    unfold Frame_wire. now rewrite ttl_TLV_wire.
Qed.

(** A TTL of minus one second, with one optional TLV: the frame is
    encoded, and its TTL field is [ff ff]. *)
Lemma C9_negative_TTL_wraps_witness :
  Frame_MarshalBinary
    (mkFrame (Some (mkChassisID x04 [x0a])) (Some (mkPortID x05 [x0b]))
             (- Second)%Z [Some (mkTLV x05 1 [x7a])])
  <> Err ErrInvalidFrame /\
  Frame_MarshalBinary
    (mkFrame (Some (mkChassisID x04 [x0a])) (Some (mkPortID x05 [x0b]))
             (- Second)%Z [Some (mkTLV x05 1 [x7a])])
  = Ok [x02; x02; x04; x0a; x04; x02; x05; x0b; x06; x02; xff; xff;
        x0a; x01; x7a; x00; x00].
Proof.
  destruct (C9_negative_TTL_wraps
              (mkFrame (Some (mkChassisID x04 [x0a]))
                       (Some (mkPortID x05 [x0b])) (- Second)%Z
                       [Some (mkTLV x05 1 [x7a])])
              (mkChassisID x04 [x0a]) (mkPortID x05 [x0b])
              eq_refl eq_refl)
    as (Hne & Hok & _).
  - vm_compute. reflexivity.
  - split; [exact Hne|].
    apply (Hok [mkTLV x05 1 [x7a]] eq_refl).
    + cbn [ChassisID_ID length]. lia.
    + cbn [PortID_ID length]. lia.
    + constructor; [|constructor].
      repeat split; vm_compute; congruence.
Defined.
